(** * webcrawler: politeness rules, visited cache, link extractor, fetcher

    A shallow embedding of the crawler's core ([crawler/crawlingrules.go],
    the in-memory cache, [crawler/fetcher/parser.go], the HTTP fetcher and
    [crawler/crawler.go]) and the properties its specification states about
    them.

    Conventions.
    - A Go [int64] (and so a [time.Duration], a count of nanoseconds) is a
      [Z] kept in range by [wrap64]; Go's [/] and [%] truncate toward zero
      ([Z.quot], [Z.rem]).
    - A Go [float64] is a [spec_float] of the Standard Library at binary64
      (precision 53, exponent bound 1024): every float operation of the
      source is evaluated with IEEE-754 round-to-nearest-even, not with real
      arithmetic.
    - A nil-able pointer is an [option]; a panic is [Panic].
    - Pointer receivers are state passing: a method takes the struct and
      returns it next to its result.
    - The libraries the crawler calls (net/url, net/http, robotstxt,
      goquery) are interfaces (type classes); the theorems hold for every
      implementation of them, and the fixtures at the end of the definitions
      give the values of Go's implementations on a handful of inputs. *)

From Stdlib Require Import ZArith List Bool Lia Ascii String.
From Stdlib Require Import Floats.SpecFloat.
From stdpp Require Import base option list gmap strings.

Local Open Scope Z_scope.

#[local] Set Warnings "-clear-no-such-hyp".

(** ** The Go runtime: int64, float64, panics *)

Module Go.

(** Two's complement wrap-around of a 64-bit signed integer. *)
Definition wrap64 (z : Z) : Z :=
  (z + 9223372036854775808) mod 18446744073709551616 - 9223372036854775808.

Definition min_int64 : Z := -9223372036854775808.
Definition max_int64 : Z := 9223372036854775807.

Definition int64_add (a b : Z) : Z := wrap64 (a + b).
Definition int64_mul (a b : Z) : Z := wrap64 (a * b).

(** The same for a 32-bit signed integer. *)
Definition wrap32 (z : Z) : Z :=
  (z + 2147483648) mod 4294967296 - 2147483648.

Definition max_int32 : Z := 2147483647.

Definition int32_add (a b : Z) : Z := wrap32 (a + b).

(** [a / b] and [a % b] on int64 (the divisor is a non-zero constant at
    every use in the crawler). *)
Definition int64_div (a b : Z) : Z := wrap64 (Z.quot a b).
Definition int64_rem (a b : Z) : Z := Z.rem a b.

(** binary64. *)
Definition float64 : Type := spec_float.
Definition prec : Z := 53.
Definition emax : Z := 1024.

(** [float64(z)] for an int64 [z]: the nearest binary64. *)
Definition float64_of_int64 (z : Z) : float64 :=
  binary_normalize prec emax z 0 false.

Definition fadd : float64 -> float64 -> float64 := SFadd prec emax.
Definition fsub : float64 -> float64 -> float64 := SFsub prec emax.
Definition fmul : float64 -> float64 -> float64 := SFmul prec emax.
Definition fdiv : float64 -> float64 -> float64 := SFdiv prec emax.

(** The float constants of the source: 1.5, 0.5 and 1e9 are binary64
    values ([3 * 2^-1], [1 * 2^-1], [10^9]). *)
Definition f1_5 : float64 := binary_normalize prec emax 3 (-1) false.
Definition f0_5 : float64 := binary_normalize prec emax 1 (-1) false.
Definition f1e9 : float64 := float64_of_int64 1000000000.

(** [int64(f)]: the fraction is discarded (truncation toward zero). For a
    NaN, an infinity or a value outside int64 the Go specification leaves
    the result to the implementation; amd64 (CVTTSD2SQ) gives the least
    int64, which is what is modelled. *)
Definition int64_of_float64 (f : float64) : Z :=
  match f with
  | S754_zero _ => 0
  | S754_finite s m e =>
      let mag := match e with
                 | Zneg p => Z.shiftr (Zpos m) (Zpos p)
                 | _ => Z.shiftl (Zpos m) e
                 end in
      let v := if s then - mag else mag in
      if (min_int64 <=? v) && (v <=? max_int64) then v else min_int64
  | _ => min_int64
  end.

Definition is_nan (f : float64) : bool :=
  match f with S754_nan => true | _ => false end.
Definition is_pos_inf (f : float64) : bool :=
  match f with S754_infinity false => true | _ => false end.
Definition is_zero (f : float64) : bool :=
  match f with S754_zero _ => true | _ => false end.
Definition signbit (f : float64) : bool :=
  match f with
  | S754_zero s | S754_infinity s | S754_finite s _ _ => s
  | S754_nan => false
  end.

(** [math.Max]: +Inf and NaN first, then the two zeros, then [x > y]. *)
Definition math_Max (x y : float64) : float64 :=
  if is_pos_inf x || is_pos_inf y then S754_infinity false
  else if is_nan x || is_nan y then S754_nan
  else if is_zero x && is_zero y then (if signbit x then y else x)
  else if SFltb y x then x else y.

(** [math.Pow(x, 2.0)], for the finite [x] the crawler passes (a number of
    seconds): Go's [pow] returns 0 for [x == 0] and 1 for [x == 1], and
    otherwise splits [x] with [Frexp], squares the mantissa once (one
    rounded multiplication) and scales the result back with [Ldexp]; with
    no overflow or underflow in reach this is the rounded product [x * x]. *)
Definition math_Pow2 (x : float64) : float64 := fmul x x.

(** The mantissa and exponent of the float of a positive integer below
    [2^53]. *)
Definition mantissa (m : positive) : positive :=
  match (53 - Zpos (digits2_pos m))%Z with
  | Zpos k => Pos.iter xO m k
  | _ => m
  end.

Definition exponent (m : positive) : Z :=
  Z.min 0 (Zpos (digits2_pos m) - 53)%Z.

(** The outcome of a call that may panic. *)
Inductive outcome (A : Type) : Type :=
| Ret (a : A)
| Panic (msg : string).
Arguments Ret {A} a.
Arguments Panic {A} msg.

#[global] Instance outcome_ret : MRet outcome := fun A a => Ret a.
#[global] Instance outcome_bind : MBind outcome := fun A B k m =>
  match m with
  | Ret a => k a
  | Panic msg => Panic msg
  end.

(** Dereferencing a pointer. *)
Definition deref {A : Type} (p : option A) : outcome A :=
  match p with
  | Some a => Ret a
  | None => Panic "invalid memory address or nil pointer dereference"
  end.

End Go.

(** ** time *)

Module time.

(** [time.Duration]: int64 nanoseconds. *)
Definition Duration : Type := Z.

Definition Nanosecond : Duration := 1.
Definition Millisecond : Duration := 1000000.
Definition Second : Duration := 1000000000.

(** [d.Milliseconds()] is [int64(d) / 1e6]. *)
Definition Milliseconds (d : Duration) : Z := Go.int64_div d 1000000.

(** [d.Seconds()]:
    [sec := d / Second; nsec := d % Second;
     return float64(sec) + float64(nsec)/1e9]. *)
Definition Seconds (d : Duration) : Go.float64 :=
  let sec := Go.int64_div d Second in
  let nsec := Go.int64_rem d Second in
  Go.fadd (Go.float64_of_int64 sec)
          (Go.fdiv (Go.float64_of_int64 nsec) Go.f1e9).

(** [a * b] on durations. *)
Definition mul (a b : Duration) : Duration := Go.int64_mul a b.

End time.

(** ** The in-memory cache of visited links

    [map[string]map[string]bool] behind a read-write mutex; the mutex only
    orders concurrent callers and is left out. The inner maps are
    references: [c.cache[namespace][key] = true] updates the set stored
    under [namespace]. *)

Module Cache.

Abbreviation memoryCache := (gmap string (gmap string bool)).

Definition newMemoryCache : memoryCache := ∅.

(** [Set]: the inner set is created when the namespace is new
    ([_, ok := c.cache[namespace]; if !ok { ... make ... }]), then the key
    is stored with value [true]. *)
Definition Set_ (namespace key : string) (c : memoryCache) : memoryCache :=
  let inner := match c !! namespace with
               | Some inner => inner
               | None => ∅
               end in
  <[namespace := <[key := true]> inner]> c.

(** [Contains]: [false] for an unknown namespace, otherwise [inner[key]],
    which is [false] (the zero value) for a key that is not stored. *)
Definition Contains (namespace key : string) (c : memoryCache) : bool :=
  match c !! namespace with
  | None => false
  | Some inner => default false (inner !! key)
  end.

(** The cache after a sequence of [Set] calls, oldest first. *)
Definition sets (c : memoryCache) (calls : list (string * string))
    : memoryCache :=
  foldl (fun c call => Set_ call.1 call.2 c) c calls.

End Cache.

(** ** Library interfaces *)

(** Go's [error] values are carried by their message. *)
Definition error : Type := string.

(** A Go result pair [(T, error)] whose value is meaningful only when the
    error is nil. *)
Inductive result (A : Type) : Type :=
| Ok (a : A)
| Err (e : error).
Arguments Ok {A} a.
Arguments Err {A} e.

(** net/url. [URL] stands for a non-nil [*url.URL]; the crawler calls
    [Parse], [String], [RequestURI], [Hostname] and [ResolveReference],
    reads the fields [Scheme], [Host] and [Path], and assigns [Scheme]. *)
Module url.

Class API : Type := {
  URL : Type;
  Parse : string -> result URL;
  String : URL -> string;
  RequestURI : URL -> string;
  Hostname : URL -> string;
  ResolveReference : URL -> URL -> URL;
  Scheme : URL -> string;
  Host : URL -> string;
  Path : URL -> string;
  set_Scheme : string -> URL -> URL
}.

End url.

(** net/http: a response as the crawler reads it, and a client, which
    answers a request with the time it took and a response or an error. *)
Module http.

Definition StatusBadRequest : Z := 400.
Definition StatusNotFound : Z := 404.

Record Response : Type := {
  StatusCode : Z;
  Status : string;
  Body : string
}.

Section Requests.
Context `{U : url.API}.

Record Request : Type := {
  Method : string;
  Target : url.URL;
  Header : list (string * string)
}.

(** [http.NewRequest(method, url, nil)] fails when the URL does not parse
    (the method is the constant GET here). *)
Definition NewRequest (method target : string) : result Request :=
  match url.Parse target with
  | Err e => Err e
  | Ok u => Ok {| Method := method; Target := u; Header := [] |}
  end.

Definition Header_Set (key value : string) (req : Request) : Request :=
  {| Method := Method req; Target := Target req;
     Header := (key, value) :: Header req |}.

(** [client.Do(req)], with the wall-clock time around it
    ([start := time.Now(); ...; elapsed := time.Since(start)]). *)
Definition Client : Type := Request -> time.Duration * result Response.

End Requests.

End http.

(** github.com/temoto/robotstxt: a group answers [Test] on a path and
    carries its crawl delay. *)
Module robotstxt.

Record Group : Type := {
  Test : string -> bool;
  CrawlDelay : time.Duration
}.

Class API : Type := {
  RobotsData : Type;
  FromResponse : http.Response -> result RobotsData;
  FindGroup : RobotsData -> string -> option Group
}.

(** [emptyGroup] of the library, [&Group{}]: a group without rules, whose
    [Test] allows every path and whose crawl delay is zero. *)
Definition emptyGroup : Group :=
  {| Test := fun _ => true; CrawlDelay := 0 |}.

(** robotstxt v1.1.1, the version [go.mod] requires. Its [FindGroup] looks
    for the group of the data that matches the agent (the group of [*], or
    the one with the longest agent that is a prefix of the agent) and ends in
    [if ret == nil { return emptyGroup }]: it never returns nil. [matching]
    is the search before that last test. *)
Class Pinned `{API} : Type := {
  matching : RobotsData -> string -> option Group;
  FindGroup_matching : forall data agent,
    FindGroup data agent = Some (default emptyGroup (matching data agent))
}.

End robotstxt.

(** math/rand: the source is the sequence of values it will yield.
    [Int63n(n)] panics for [n <= 0] and otherwise returns a value of
    [[0, n)]: the next value of the source reduced modulo [n], so that every
    value of the range is the result for some source. *)
Module rand.

Record Rand : Type := {
  draws : nat -> Z;
  pos : nat
}.

Definition Int63n (n : Z) (r : Rand) : Go.outcome (Z * Rand) :=
  if n <=? 0 then Go.Panic "invalid argument to Int63n"
  else Go.Ret (draws r (pos r) mod n,
               {| draws := draws r; pos := S (pos r) |}).

End rand.

(** ** crawler/crawlingrules.go *)

Module Rules.

Section CrawlingRules.
Context `{U : url.API} `{R : robotstxt.API}.

(** The [Fetcher] interface, as [GetRobotsTxtGroup] uses it: [Fetch]
    returns the elapsed time, a response pointer and an error. *)
Record Fetcher : Type := {
  Fetch : string -> time.Duration * option http.Response * option error
}.

Definition robotsTxtPath : string := "/robots.txt".

(** [cache] is the one implementation of [Cachable] the crawler has, the
    in-memory cache, which the engines of all seeds share; [rwMutex] only
    orders concurrent callers and is left out. *)
Record CrawlingRules : Type := {
  baseDomain : url.URL;
  cache : Cache.memoryCache;
  robotsGroup : option robotstxt.Group;
  fixedDelay : time.Duration;
  lastDelay : time.Duration
}.

Definition NewCrawlingRules (baseDomain : url.URL) (cache : Cache.memoryCache)
    (fixedDelay : time.Duration) : CrawlingRules :=
  {| baseDomain := baseDomain; cache := cache; robotsGroup := None;
     fixedDelay := fixedDelay; lastDelay := 0 |}.

Definition subdomain (domain link : url.URL) : bool :=
  bool_decide (url.Hostname link = url.Hostname domain)
  || bool_decide (url.Hostname link = "").

(** [Allowed]: a visited URL is refused at once; otherwise the answer is
    computed and the deferred [cache.Set] records the URL on the way out. *)
Definition Allowed (r : CrawlingRules) (link : url.URL)
    : bool * CrawlingRules :=
  if Cache.Contains (url.String (baseDomain r)) (url.String link) (cache r)
  then (false, r)
  else
    let ns := url.String (baseDomain r) in
    let key := url.String link in
    let answer :=
      match robotsGroup r with
      | Some g =>
          robotstxt.Test g (url.RequestURI link)
          && subdomain (baseDomain r) link
      | None => subdomain (baseDomain r) link
      end in
    (answer,
     {| baseDomain := baseDomain r; cache := Cache.Set_ ns key (cache r);
        robotsGroup := robotsGroup r; fixedDelay := fixedDelay r;
        lastDelay := lastDelay r |}).

(** [randDelay]:
    [max, min := 1.5*float64(value), 0.5*float64(value);
     return time.Duration(rand.Int63n(int64(max-min)) + int64(max))]. *)
Definition randDelay (value : Z) (rng : rand.Rand)
    : Go.outcome (time.Duration * rand.Rand) :=
  if value =? 0 then Go.Ret (0, rng)
  else
    let max := Go.fmul Go.f1_5 (Go.float64_of_int64 value) in
    let min := Go.fmul Go.f0_5 (Go.float64_of_int64 value) in
    '(x, rng') ← rand.Int63n (Go.int64_of_float64 (Go.fsub max min)) rng;
    Go.Ret (Go.int64_add x (Go.int64_of_float64 max), rng').

(** [time.Duration(math.Max(float64(a), float64(b))) * time.Millisecond]. *)
Definition max_ms (a b : Z) : time.Duration :=
  time.mul
    (Go.int64_of_float64
       (Go.math_Max (Go.float64_of_int64 a) (Go.float64_of_int64 b)))
    time.Millisecond.

(** [CrawlDelay] takes the struct by pointer like every other method, and
    draws from the global random source. *)
Definition CrawlDelay (r : CrawlingRules) (rng : rand.Rand)
    : Go.outcome (time.Duration * CrawlingRules * rand.Rand) :=
  let delay : time.Duration :=
    match robotsGroup r with
    | Some g => robotstxt.CrawlDelay g
    | None => 0
    end in
  '(rd, rng') ← randDelay (time.Milliseconds (fixedDelay r)) rng;
  let randomDelay := time.mul rd time.Millisecond in
  let baseDelay :=
    max_ms (time.Milliseconds randomDelay) (time.Milliseconds delay) in
  Go.Ret (max_ms (time.Milliseconds (lastDelay r))
                 (time.Milliseconds baseDelay),
          r, rng').

(** [UpdateLastDelay]:
    [r.lastDelay = time.Duration(math.Pow(float64(t.Seconds()), 2.0))
                   * time.Second]. *)
Definition squared (lastResponseTime : time.Duration) : time.Duration :=
  time.mul
    (Go.int64_of_float64 (Go.math_Pow2 (time.Seconds lastResponseTime)))
    time.Second.

Definition UpdateLastDelay (r : CrawlingRules)
    (lastResponseTime : time.Duration) : CrawlingRules :=
  {| baseDomain := baseDomain r; cache := cache r;
     robotsGroup := robotsGroup r; fixedDelay := fixedDelay r;
     lastDelay := squared lastResponseTime |}.

(** [GetRobotsTxtGroup]. The error of [url.Parse(robotsTxtPath)] is
    dropped, so a nil [u] reaches [ResolveReference], which dereferences
    it; [res.StatusCode] is read only when [err == nil]. *)
Definition GetRobotsTxtGroup (r : CrawlingRules) (f : Fetcher)
    (userAgent : string) (domain : url.URL)
    : Go.outcome (bool * CrawlingRules) :=
  u ← Go.deref (match url.Parse robotsTxtPath with
                | Ok u => Some u
                | Err _ => None
                end);
  let targetURL := url.ResolveReference domain u in
  let '(_, res, err) := Fetch f (url.String targetURL) in
  match err with
  | Some _ => Go.Ret (false, r)
  | None =>
      resp ← Go.deref res;
      if http.StatusCode resp =? http.StatusNotFound then Go.Ret (false, r)
      else
        match robotstxt.FromResponse resp with
        | Err _ => Go.Ret (false, r)
        | Ok body =>
            let g := robotstxt.FindGroup body userAgent in
            Go.Ret (match g with Some _ => true | None => false end,
                    {| baseDomain := baseDomain r; cache := cache r;
                       robotsGroup := g; fixedDelay := fixedDelay r;
                       lastDelay := lastDelay r |})
        end
  end.

(** A [CrawlingRules] in use. The calls an engine makes on its rules, and
    [CacheSet]: the cache is shared, so the engine of another seed may
    record a URL in it between two calls. *)
Inductive op : Type :=
| OpAllowed (link : url.URL)
| OpCrawlDelay
| OpUpdateLastDelay (lastResponseTime : time.Duration)
| OpGetRobotsTxtGroup (f : Fetcher) (userAgent : string) (domain : url.URL)
| OpCacheSet (namespace key : string).

Definition step (st : CrawlingRules * rand.Rand) (o : op)
    : Go.outcome (CrawlingRules * rand.Rand) :=
  let '(r, rng) := st in
  match o with
  | OpAllowed link => Go.Ret ((Allowed r link).2, rng)
  | OpCrawlDelay =>
      '(_, r', rng') ← CrawlDelay r rng; Go.Ret (r', rng')
  | OpUpdateLastDelay t => Go.Ret (UpdateLastDelay r t, rng)
  | OpGetRobotsTxtGroup f userAgent domain =>
      '(_, r') ← GetRobotsTxtGroup r f userAgent domain; Go.Ret (r', rng)
  | OpCacheSet namespace key =>
      Go.Ret ({| baseDomain := baseDomain r;
                 cache := Cache.Set_ namespace key (cache r);
                 robotsGroup := robotsGroup r; fixedDelay := fixedDelay r;
                 lastDelay := lastDelay r |}, rng)
  end.

Fixpoint exec (st : CrawlingRules * rand.Rand) (ops : list op)
    : Go.outcome (CrawlingRules * rand.Rand) :=
  match ops with
  | [] => Go.Ret st
  | o :: rest => st' ← step st o; exec st' rest
  end.

(** The specification's words. In-domain: same host as the base domain,
    or empty host. *)
Definition in_domain (r : CrawlingRules) (link : url.URL) : Prop :=
  url.Hostname link = url.Hostname (baseDomain r) \/ url.Hostname link = "".

(** [robotsGroup] is unset or [robotsGroup.test(url.path)] is true. *)
Definition robots_pass_path (r : CrawlingRules) (link : url.URL) : Prop :=
  match robotsGroup r with
  | None => True
  | Some g => robotstxt.Test g (url.Path link) = true
  end.

(** The same with the request URI of the link, which is what the code
    hands to [Test]. *)
Definition robots_pass (r : CrawlingRules) (link : url.URL) : Prop :=
  match robotsGroup r with
  | None => True
  | Some g => robotstxt.Test g (url.RequestURI link) = true
  end.

(** [(responseTime in seconds) squared], as a duration: the exact square,
    in nanoseconds (a whole number of them whenever the time is a whole
    number of milliseconds, say). *)
Definition squared_seconds (t : time.Duration) : Z :=
  t * t / time.Second.

(** The square cut down to whole seconds. *)
Definition whole_squared_seconds (t : time.Duration) : time.Duration :=
  (t * t / (time.Second * time.Second)) * time.Second.

(** Checks over a range of inputs, decided by evaluation: the two
    conversions of [randDelay] at [value], and [squared] at a whole number
    [ms] of milliseconds. *)
Definition randDelay_parts_at (value : Z) : bool :=
  let max := Go.fmul Go.f1_5 (Go.float64_of_int64 value) in
  let min := Go.fmul Go.f0_5 (Go.float64_of_int64 value) in
  (Go.int64_of_float64 (Go.fsub max min) =? value)
  && (Go.int64_of_float64 max =? 3 * value / 2).

Definition squared_at (ms : Z) : bool :=
  squared (ms * time.Millisecond)
  =? whole_squared_seconds (ms * time.Millisecond).

(** [f] holds on the [n] integers from [z] on. *)
Fixpoint all_from (f : Z -> bool) (n : nat) (z : Z) : bool :=
  match n with
  | O => true
  | S n' => if f z then all_from f n' (z + 1) else false
  end.

End CrawlingRules.

End Rules.

(** ** crawler/fetcher/parser.go *)

(** path/filepath: [Ext] is the suffix that starts at the last dot of the
    last element of the path, or the empty string. *)
Module filepath.

(** The scan [for i := len(path)-1; i >= 0 && path[i] != '/'; i--], on
    the reversed path; [suffix] is [path[i+1:]]. *)
Fixpoint Ext_scan (rev_path suffix : list ascii) : list ascii :=
  match rev_path with
  | [] => []
  | c :: rest =>
      if Ascii.eqb c "/"%char then []
      else if Ascii.eqb c "."%char then c :: suffix
      else Ext_scan rest (c :: suffix)
  end.

Definition Ext (path : string) : string :=
  string_of_list_ascii (Ext_scan (rev (list_ascii_of_string path)) []).

End filepath.

(** goquery, as the extractor uses it: a document is the sequence of its
    element nodes in document order, an element has a tag and attributes. *)
Module goquery.

Record Element : Type := {
  tag : string;
  attrs : list (string * string)
}.

Definition Document : Type := list Element.

(** [NewDocumentFromReader]: the parsed document, or the error of the
    reader. *)
Class API : Type := {
  NewDocumentFromReader : string -> result Document
}.

(** [doc.Find("a,link")]: the [a] and [link] elements, in document order. *)
Definition Find_a_link (doc : Document) : list Element :=
  filter (fun el => tag el = "a" ∨ tag el = "link") doc.

(** [element.Attr(name)]: the value and whether the attribute exists. *)
Definition Attr (name : string) (el : Element) : string * bool :=
  match find (fun kv => bool_decide (kv.1 = name)) (attrs el) with
  | Some kv => (kv.2, true)
  | None => ("", false)
  end.

End goquery.

(** sync.Map holding booleans under string keys. *)
Module syncmap.

Abbreviation Map := (gmap string bool).

Definition LoadOrStore (key : string) (value : bool) (m : Map)
    : bool * bool * Map :=
  match m !! key with
  | Some actual => (actual, true, m)
  | None => (value, false, <[key := value]> m)
  end.

Definition Store (key : string) (value : bool) (m : Map) : Map :=
  <[key := value]> m.

End syncmap.

Module Parser.

Section GoqueryParser.
Context `{U : url.API} `{G : goquery.API}.

(** [seen] is a pointer to a [sync.Map] and [excludedExts] a map: every
    copy of a [GoqueryParser] value shares them, so [Parse], which has a
    value receiver, still updates the instance. *)
Record GoqueryParser : Type := {
  excludedExts : gmap string bool;
  seen : syncmap.Map
}.

Definition NewGoqueryParser : GoqueryParser :=
  {| excludedExts := ∅; seen := ∅ |}.

Definition ExcludeExtensions (exts : list string) (p : GoqueryParser)
    : GoqueryParser :=
  {| excludedExts := foldl (fun m ext => <[ext := true]> m) (excludedExts p) exts;
     seen := seen p |}.

Definition excluded (p : GoqueryParser) (ext : string) : bool :=
  default false (excludedExts p !! ext).

Definition resolveRelativeURL (baseURL relative : string)
    : option url.URL :=
  match url.Parse relative with
  | Err _ => None
  | Ok u =>
      if bool_decide (url.Hostname u ≠ "") then Some u
      else match url.Parse baseURL with
           | Err _ => None
           | Ok base => Some (url.ResolveReference base u)
           end
  end.

(** The predicate given to [FilterFunction]. *)
Definition qualifies (p : GoqueryParser) (element : goquery.Element) : bool :=
  let '(hrefLink, hrefExists) := goquery.Attr "href" element in
  let '(linkType, linkExists) := goquery.Attr "rel" element in
  let anchorOk := hrefExists && negb (excluded p (filepath.Ext hrefLink)) in
  let linkOk := linkExists && bool_decide (linkType = "canonical")
                && negb (excluded p (filepath.Ext linkType)) in
  anchorOk || linkOk.

(** The body of [Each]: one element, the links found so far and the
    seen-map. *)
Definition visit (baseURL : string) (acc : list url.URL * syncmap.Map)
    (element : goquery.Element) : list url.URL * syncmap.Map :=
  let '(foundURLs, seen) := acc in
  let res := (goquery.Attr "href" element).1 in
  match resolveRelativeURL baseURL res with
  | None => (foundURLs, seen)
  | Some link =>
      let '(present, _, seen1) :=
        syncmap.LoadOrStore (url.String link) false seen in
      if negb present
      then (foundURLs ++ [link], syncmap.Store (url.String link) true seen1)
      else (foundURLs, seen1)
  end.

Definition extractLinks (p : GoqueryParser) (doc : option goquery.Document)
    (baseURL : string) : option (list url.URL) * GoqueryParser :=
  match doc with
  | None => (None, p)
  | Some doc =>
      let selection := filter (fun el => qualifies p el = true)
                              (goquery.Find_a_link doc) in
      let '(foundURLs, seen') := foldl (visit baseURL) ([], seen p) selection in
      (Some foundURLs, {| excludedExts := excludedExts p; seen := seen' |})
  end.

Definition Parse (p : GoqueryParser) (baseURL reader : string)
    : (option (list url.URL) * option error) * GoqueryParser :=
  match goquery.NewDocumentFromReader reader with
  | Err e => ((None, Some e), p)
  | Ok doc =>
      let '(links, p') := extractLinks p (Some doc) baseURL in
      ((links, None), p')
  end.

(** A parser instance in use: calls of [ExcludeExtensions] and [Parse]. *)
Inductive call : Type :=
| CallExclude (exts : list string)
| CallParse (baseURL reader : string).

(** The links each [Parse] of a run returned, oldest call first (a nil
    slice, returned with an error, holds no link). *)
Fixpoint run (p : GoqueryParser) (calls : list call) : list (list url.URL) :=
  match calls with
  | [] => []
  | CallExclude exts :: rest => run (ExcludeExtensions exts p) rest
  | CallParse baseURL reader :: rest =>
      let '((links, _), p') := Parse p baseURL reader in
      default [] links :: run p' rest
  end.

(** The parser a run leaves behind. *)
Fixpoint run_state (p : GoqueryParser) (calls : list call) : GoqueryParser :=
  match calls with
  | [] => p
  | CallExclude exts :: rest => run_state (ExcludeExtensions exts p) rest
  | CallParse baseURL reader :: rest =>
      run_state (Parse p baseURL reader).2 rest
  end.

(** What a document offers for emission: the resolved [href] of every
    qualifying element, in document order. *)
Definition candidates (p : GoqueryParser) (baseURL reader : string)
    : list url.URL :=
  match goquery.NewDocumentFromReader reader with
  | Err _ => []
  | Ok doc =>
      omap (fun el => resolveRelativeURL baseURL (goquery.Attr "href" el).1)
           (filter (fun el => qualifies p el = true) (goquery.Find_a_link doc))
  end.

(** The links of [cands] that are not in [emitted], each once, in order:
    the extractor with the set of emitted strings in place of the map. *)
Fixpoint fresh (emitted : gset string) (cands : list url.URL)
    : list url.URL :=
  match cands with
  | [] => []
  | c :: cs =>
      if decide (url.String c ∈ emitted) then fresh emitted cs
      else c :: fresh ({[url.String c]} ∪ emitted) cs
  end.

(** Every value of the seen-map is [true] between two calls. *)
Definition all_true (seen : syncmap.Map) : Prop :=
  map_Forall (fun _ v => v = true) seen.

(** The seen-map after the links [news] were emitted. *)
Definition mark (news : list url.URL) (seen : syncmap.Map) : syncmap.Map :=
  foldl (fun m u => <[url.String u := true]> m) seen news.

End GoqueryParser.

(** The specification's reading of emission order: of a list of URL
    strings, the first occurrence of each, in order. *)
Fixpoint first_occurrences (l : list string) : list string :=
  match l with
  | [] => []
  | x :: rest =>
      x :: filter (fun y => y ≠ x) (first_occurrences rest)
  end.

End Parser.

(** ** crawler/fetcher: the HTTP fetcher *)

Module Fetcher.

Section StdHttpFetcher.
Context `{U : url.API}.

(** The [Parser] interface: [Parse(baseURL, body)] returns the links (a
    slice, [None] when nil) and an error. *)
Record Parser : Type := {
  Parse : string -> string -> option (list url.URL) * option error
}.

Record stdHttpFetcher : Type := {
  userAgent : string;
  parser : option Parser;
  client : http.Client
}.

(** [parseStartURL]: [parsed, _ := url.Parse(u)] drops the error, and the
    fields of [parsed] are read next. *)
Definition parseStartURL (u : string) : Go.outcome string :=
  parsed ← Go.deref (match url.Parse u with
                     | Ok parsed => Some parsed
                     | Err _ => None
                     end);
  Go.Ret (url.Scheme parsed ++ "://" ++ url.Host parsed)%string.

Definition Fetch (f : stdHttpFetcher) (target : string)
    : time.Duration * option http.Response * option error :=
  match http.NewRequest "GET" target with
  | Err e => (0, None, Some e)
  | Ok req =>
      let req := http.Header_Set "User-Agent" (userAgent f) req in
      let '(elapsed, res) := client f req in
      match res with
      | Err e => (elapsed, None, Some e)
      | Ok resp => (elapsed, Some resp, None)
      end
  end.

Definition failed (targetURL reason : string) : error :=
  ("fetching links from " ++ targetURL ++ " failed: " ++ reason)%string.

(** [FetchLinks] of the fetcher that tests the status after the error. *)
Definition FetchLinks (f : stdHttpFetcher) (targetURL : string)
    : Go.outcome (time.Duration * option (list url.URL) * option error) :=
  match parser f with
  | None => Go.Ret (0, None, Some (failed targetURL "no parser set"))
  | Some p =>
      baseDomain ← parseStartURL targetURL;
      let '(elapsed, resp, err) := Fetch f targetURL in
      match err with
      | Some e => Go.Ret (elapsed, None, Some (failed targetURL e))
      | None =>
          resp ← Go.deref resp;
          if http.StatusBadRequest <=? http.StatusCode resp
          then Go.Ret (elapsed, None,
                       Some (failed targetURL (http.Status resp)))
          else
            let '(links, err) := Parse p baseDomain (http.Body resp) in
            match err with
            | Some e => Go.Ret (elapsed, None, Some (failed targetURL e))
            | None => Go.Ret (elapsed, links, None)
            end
      end
  end.

(** [FetchLinks] of the fetcher behind the [Fetcher] interface: one test
    [err != nil || resp.StatusCode >= http.StatusBadRequest], and the
    (possibly nil) error wrapped with [%w]. *)
Definition FetchLinks_iface (f : stdHttpFetcher) (targetURL : string)
    : Go.outcome (time.Duration * option (list url.URL) * option error) :=
  match parser f with
  | None => Go.Ret (0, None, Some (failed targetURL "no parser set"))
  | Some p =>
      baseDomain ← parseStartURL targetURL;
      let '(elapsed, resp, err) := Fetch f targetURL in
      match err with
      | Some e => Go.Ret (elapsed, None, Some (failed targetURL e))
      | None =>
          resp ← Go.deref resp;
          if http.StatusBadRequest <=? http.StatusCode resp
          then Go.Ret (elapsed, None,
                       Some (failed targetURL "%!w(<nil>)"))
          else
            let '(links, err) := Parse p baseDomain (http.Body resp) in
            match err with
            | Some e => Go.Ret (elapsed, None, Some (failed targetURL e))
            | None => Go.Ret (elapsed, links, None)
            end
      end
  end.

(** What [FetchLinks] returns for the outcome of [Parse]. *)
Definition parsed_links (targetURL : string) (elapsed : time.Duration)
    (r : option (list url.URL) * option error)
    : time.Duration * option (list url.URL) * option error :=
  match r.2 with
  | Some e => (elapsed, None, Some (failed targetURL e))
  | None => (elapsed, r.1, None)
  end.

End StdHttpFetcher.

End Fetcher.

(** ** crawler/crawler.go: the orchestrator *)

Module Crawler.

Section Crawl.
Context `{U : url.API}.

(** What [Crawl] does, in order: a goroutine running [crawlPage] is
    started, a line is logged, the wait group is awaited, or the process
    is left with [os.Exit]. *)
Inductive event : Type :=
| GoCrawlPage (rootURL : url.URL)
| Log (line : string)
| WaitAll
| OsExit (code : Z).

(** How a call ends: it returns to its caller, or the process exits. *)
Inductive ending : Type :=
| Returns
| Exits (code : Z).

(** [if url.Scheme == "" { url.Scheme = "https" }]. *)
Definition default_scheme (u : url.URL) : url.URL :=
  if bool_decide (url.Scheme u = "") then url.set_Scheme "https" u else u.

(** The loop over the seeds. [c.logger.Fatal(err)] is [Print] followed by
    [os.Exit(1)]. *)
Fixpoint spawn (URLs : list string) : list event * ending :=
  match URLs with
  | [] => ([], Returns)
  | href :: rest =>
      match url.Parse href with
      | Err e => ([Log e; OsExit 1], Exits 1)
      | Ok u =>
          let u := default_scheme u in
          let '(evs, e) := spawn rest in
          (GoCrawlPage u :: evs, e)
      end
  end.

Definition Crawl (URLs : list string) : list event * ending :=
  match spawn URLs with
  | (evs, Exits code) => (evs, Exits code)
  | (evs, Returns) => (evs ++ [WaitAll; Log "Crawling done"], Returns)
  end.

(** The seeds for which an engine was started. *)
Definition started (evs : list event) : list url.URL :=
  omap (fun ev => match ev with GoCrawlPage u => Some u | _ => None end) evs.

(** The seeds [hrefs] parse to the URLs [us]. *)
Definition parse_to (hrefs : list string) (us : list url.URL) : Prop :=
  Forall2 (fun href u => url.Parse href = Ok u) hrefs us.

End Crawl.

End Crawler.

(** ** crawler/crawler.go: the engine of one seed

    [crawlPage] runs a main loop in its own goroutine and starts a worker
    goroutine for every link [Allowed] lets through. The engine is embedded
    as a machine: its state holds the variables of [crawlPage], the buffer
    of [linksCh] and the place each goroutine has reached, and a step is one
    statement of one goroutine. A schedule, the list of the steps taken,
    stands for the interleaving; what [FetchLinks] answered comes with the
    step, since it depends on the network and on the parser's history. The
    cache is written by this engine alone: the engine of another seed writes
    under its own base domain (two seeds with the same base domain apart). *)

Module Engine.

Section CrawlPage.
Context `{U : url.API} `{R : robotstxt.API}.

(** Where a worker goroutine is: started, past [semaphore <- struct{}{}],
    past [FetchLinks], [UpdateLastDelay] and the two tests with a batch to
    publish, past [atomic.AddInt32(&linkCounter, int32(len(foundLinks)))],
    past [enqueueResults], past its body (after [linksCh <- foundLinks] or a
    [return]), in [time.Sleep] of the first deferred call, past
    [<-semaphore], and past [atomic.AddInt32(&linkCounter, -1)] and
    [w.Done()]. *)
Inductive phase : Type :=
| Started
| Holding
| Found (batch : list url.URL)
| Counted (batch : list url.URL)
| Enqueued (batch : list url.URL)
| Returning
| Sleeping (delay : time.Duration)
| Released
| Gone.

(** A worker goroutine:
    [go func(link, stopSentinel, w) {...}(link, stop, &fetchWg)]. *)
Record worker : Type := {
  link : url.URL;
  stopSentinel : bool;
  pc : phase
}.

(** The variables of [crawlPage] the loop body works on; [workers] are the
    goroutines started so far, oldest first. [linkCounter] is an int32. *)
Record loop : Type := {
  crawlingRules : Rules.CrawlingRules;
  stop : bool;
  depth : Z;
  linkCounter : Z;
  workers : list worker
}.

Definition start (rules : Rules.CrawlingRules) : loop :=
  {| crawlingRules := rules; stop := false; depth := 0; linkCounter := 1;
     workers := [] |}.

(** The body of [for _, link := range links], for the setting [MaxDepth]. *)
Definition each_link (MaxDepth : Z) (st : loop) (l : url.URL) : loop :=
  let '(allowed, rules) := Rules.Allowed (crawlingRules st) l in
  if negb allowed
  then {| crawlingRules := rules; stop := stop st; depth := depth st;
          linkCounter := Go.int32_add (linkCounter st) (-1);
          workers := workers st |}
  else
    let started :=
      workers st ++ [{| link := l; stopSentinel := stop st; pc := Started |}] in
    if (MaxDepth =? 0) || negb (stop st)
    then
      let depth' := Go.int64_add (depth st) 1 in
      {| crawlingRules := rules;
         stop := (0 <? MaxDepth) && (MaxDepth <=? depth');
         depth := depth'; linkCounter := linkCounter st;
         workers := started |}
    else
      {| crawlingRules := rules; stop := stop st; depth := depth st;
         linkCounter := linkCounter st; workers := started |}.

(** What the worker goes on to publish after [FetchLinks]: nothing after
    an error, and nothing when
    [stopSentinel || foundLinks == nil || len(foundLinks) == 0]. *)
Definition publishes (w : worker) (foundLinks : option (list url.URL))
    (err : option error) : option (list url.URL) :=
  match err with
  | Some _ => None
  | None =>
      match foundLinks with
      | Some (l0 :: ls) => if stopSentinel w then None else Some (l0 :: ls)
      | _ => None
      end
  end.

(** The rules [r] of an engine over the cache [c]: the cache is one
    object, shared by the engines of all seeds. *)
Definition over (c : Cache.memoryCache) (r : Rules.CrawlingRules)
    : Rules.CrawlingRules :=
  {| Rules.baseDomain := Rules.baseDomain r; Rules.cache := c;
     Rules.robotsGroup := Rules.robotsGroup r;
     Rules.fixedDelay := Rules.fixedDelay r;
     Rules.lastDelay := Rules.lastDelay r |}.

(** [ParsedResult], its serialisation and the producer of the queue. *)
Record ParsedResult : Type := {
  URL : string;
  Links_ : list string
}.

Record Producer : Type := {
  Produce : string -> option error
}.

(** The settings the engine reads. *)
Record CrawlerSettings : Type := {
  Concurrency : Z;
  MaxDepth : Z
}.

(** The size of [semaphore] and of the buffer of [linksCh]. *)
Definition capacity (settings : CrawlerSettings) : nat :=
  if 0 <? Concurrency settings then Z.to_nat (Concurrency settings) else 1%nat.

Variable Marshal : ParsedResult -> string.

(** [enqueueResults]: the lines logged and the payload produced. *)
Definition enqueueResults (queue : Producer) (l : url.URL)
    (foundLinks : list url.URL) : list string * string :=
  let foundLinksStr := url.String <$> foundLinks in
  let payload :=
    Marshal {| URL := url.String l; Links_ := foundLinksStr |} in
  match Produce queue payload with
  | Some err =>
      (["Unable to communicate with message queue: " ++ err]%string, payload)
  | None => ([], payload)
  end.

(** *** A worker on its own *)

(** What a worker has done when it ends: the rules and the random source
    it leaves, the net change of [linkCounter], the lines it logged, the
    payloads it produced, the batch it sent to [linksCh], and how long it
    slept before it released the semaphore. *)
Record finished : Type := {
  rules_after : Rules.CrawlingRules;
  rng_after : rand.Rand;
  counter : Z;
  logged : list string;
  payloads : list string;
  sent : option (list url.URL);
  slept : time.Duration
}.

(** The body of the worker, then its deferred calls:
    [time.Sleep(crawlingRules.CrawlDelay())], the release of the semaphore
    and [atomic.AddInt32(&linkCounter, -1)]; no other goroutine runs in
    between. *)
Definition run_worker (queue : Producer) (f : Fetcher.stdHttpFetcher)
    (rules : Rules.CrawlingRules) (rng : rand.Rand) (w : worker)
    : Go.outcome finished :=
  '(responseTime, foundLinks, err) ←
    Fetcher.FetchLinks f (url.String (link w));
  let rules := Rules.UpdateLastDelay rules responseTime in
  let '(added, lines, out) :=
    match publishes w foundLinks err with
    | Some batch =>
        let '(lines, payload) := enqueueResults queue (link w) batch in
        (Z.of_nat (length batch), lines, [payload])
    | None =>
        (0, match err with Some e => [e] | None => [] end, [])
    end in
  '(delay, rules, rng) ← Rules.CrawlDelay rules rng;
  Go.Ret {| rules_after := rules; rng_after := rng; counter := added - 1;
            logged := lines; payloads := out;
            sent := publishes w foundLinks err; slept := delay |}.

(** *** The goroutines together *)

(** Where the main loop is: in its loop, returned after [fetchWg.Wait()],
    or returned on [ctx.Done()]. *)
Inductive place : Type :=
| InLoop
| Returned
| Cancelled.

(** [links] is the rest of the batch the loop ranges over (empty at the
    [select]); [linksCh] the buffer of the channel, oldest batch first;
    [source] the global random source; [produced] the payloads handed to
    the queue, oldest first. *)
Record engine : Type := {
  vars : loop;
  links : list url.URL;
  linksCh : list (list url.URL);
  source : rand.Rand;
  produced : list string;
  main : place
}.

(** [crawlPage] up to its loop: [linkCounter] is 1, the root is in the
    channel, and [rules] are the rules after [GetRobotsTxtGroup]. *)
Definition boot (rules : Rules.CrawlingRules) (rng : rand.Rand)
    (rootURL : url.URL) : engine :=
  {| vars := start rules; links := []; linksCh := [[rootURL]];
     source := rng; produced := []; main := InLoop |}.

(** The steps. Of the main loop: a batch received from [linksCh], one
    link of the batch, the timer of [time.After], [ctx.Done()], and
    [fetchWg.Wait()] returning. Of worker [i]: its next statement, or
    [FetchLinks] returning [responseTime, foundLinks, err]. *)
Inductive action : Type :=
| Receive
| Range
| Timer
| Cancel
| Wait
| Work (i : nat)
| Fetched (i : nat) (responseTime : time.Duration)
          (foundLinks : option (list url.URL)) (err : option error).

Definition holds (p : phase) : bool :=
  match p with
  | Holding | Found _ | Counted _ | Enqueued _ | Returning | Sleeping _ => true
  | Started | Released | Gone => false
  end.

Definition holders (ws : list worker) : nat :=
  length (filter (fun w => holds (pc w) = true) ws).

Definition gone (w : worker) : bool :=
  match pc w with
  | Gone => true
  | _ => false
  end.

Definition goes (p : phase) (w : worker) : worker :=
  {| link := link w; stopSentinel := stopSentinel w; pc := p |}.

Definition loop_step (settings : CrawlerSettings) (s : engine) (a : action)
    : option engine :=
  let st := vars s in
  match main s, links s with
  | InLoop, l :: rest =>
      match a with
      | Range =>
          Some {| vars := each_link (MaxDepth settings) st l; links := rest;
                  linksCh := linksCh s; source := source s;
                  produced := produced s; main := InLoop |}
      | _ => None
      end
  | InLoop, [] =>
      if stop st
      then
        match a with
        | Wait =>
            if forallb gone (workers st)
            then Some {| vars := st; links := []; linksCh := linksCh s;
                         source := source s; produced := produced s;
                         main := Returned |}
            else None
        | _ => None
        end
      else
        match a with
        | Receive =>
            match linksCh s with
            | batch :: buffer =>
                Some {| vars := st; links := batch; linksCh := buffer;
                        source := source s; produced := produced s;
                        main := InLoop |}
            | [] => None
            end
        | Timer =>
            Some {| vars := {| crawlingRules := crawlingRules st;
                               stop := if linkCounter st <=? 0 then true
                                       else stop st;
                               depth := depth st;
                               linkCounter := linkCounter st;
                               workers := workers st |};
                    links := []; linksCh := linksCh s; source := source s;
                    produced := produced s; main := InLoop |}
        | Cancel =>
            Some {| vars := st; links := []; linksCh := linksCh s;
                    source := source s; produced := produced s;
                    main := Cancelled |}
        | _ => None
        end
  | _, _ => None
  end.

(** The engine after worker [i] has gone to [p], with the rules, the
    counter, the channel, the source and the payloads as given. *)
Definition moved (s : engine) (i : nat) (p : phase)
    (rules : Rules.CrawlingRules) (linkCounter : Z)
    (linksCh : list (list url.URL)) (source : rand.Rand)
    (produced : list string) : engine :=
  {| vars := {| crawlingRules := rules; stop := stop (vars s);
                depth := depth (vars s); linkCounter := linkCounter;
                workers := alter (goes p) i (workers (vars s)) |};
     links := links s; linksCh := linksCh; source := source;
     produced := produced; main := main s |}.

Definition work (settings : CrawlerSettings) (queue : Producer) (s : engine)
    (i : nat) : option engine :=
  let st := vars s in
  w ← workers st !! i;
  match pc w with
  | Started =>
      if decide (holders (workers st) < capacity settings)%nat
      then Some (moved s i Holding (crawlingRules st) (linkCounter st)
                       (linksCh s) (source s) (produced s))
      else None
  | Holding => None
  | Found batch =>
      Some (moved s i (Counted batch) (crawlingRules st)
                  (Go.int32_add (linkCounter st)
                                (Go.wrap32 (Z.of_nat (length batch))))
                  (linksCh s) (source s) (produced s))
  | Counted batch =>
      Some (moved s i (Enqueued batch) (crawlingRules st) (linkCounter st)
                  (linksCh s) (source s)
                  (produced s ++ [(enqueueResults queue (link w) batch).2]))
  | Enqueued batch =>
      if decide (length (linksCh s) < capacity settings)%nat
      then Some (moved s i Returning (crawlingRules st) (linkCounter st)
                       (linksCh s ++ [batch]) (source s) (produced s))
      else None
  | Returning =>
      match Rules.CrawlDelay (crawlingRules st) (source s) with
      | Go.Ret (delay, rules, rng) =>
          Some (moved s i (Sleeping delay) rules (linkCounter st)
                      (linksCh s) rng (produced s))
      | Go.Panic _ => None
      end
  | Sleeping _ =>
      Some (moved s i Released (crawlingRules st) (linkCounter st)
                  (linksCh s) (source s) (produced s))
  | Released =>
      Some (moved s i Gone (crawlingRules st)
                  (Go.int32_add (linkCounter st) (-1))
                  (linksCh s) (source s) (produced s))
  | Gone => None
  end.

Definition fetched (s : engine) (i : nat) (responseTime : time.Duration)
    (foundLinks : option (list url.URL)) (err : option error)
    : option engine :=
  let st := vars s in
  w ← workers st !! i;
  match pc w with
  | Holding =>
      Some (moved s i
                  match publishes w foundLinks err with
                  | Some batch => Found batch
                  | None => Returning
                  end
                  (Rules.UpdateLastDelay (crawlingRules st) responseTime)
                  (linkCounter st) (linksCh s) (source s) (produced s))
  | _ => None
  end.

Definition step (settings : CrawlerSettings) (queue : Producer) (s : engine)
    (a : action) : option engine :=
  match a with
  | Work i => work settings queue s i
  | Fetched i responseTime foundLinks err =>
      fetched s i responseTime foundLinks err
  | _ => loop_step settings s a
  end.

(** The engine after a schedule, if every step of it can be taken (a
    blocked send or receive, a wait that is not over, and a panic cannot). *)
Fixpoint run (settings : CrawlerSettings) (queue : Producer) (s : engine)
    (schedule : list action) : option engine :=
  match schedule with
  | [] => Some s
  | a :: rest => s' ← step settings queue s a; run settings queue s' rest
  end.

(** The sum of [f] over the workers. *)
Definition total (f : worker -> Z) (ws : list worker) : Z :=
  foldr (fun w n => f w + n) 0 ws.

(** What a worker stands for in [linkCounter]: its own link until it is
    gone, and the links of its batch between its [AddInt32] and its send. *)
Definition weight (w : worker) : Z :=
  match pc w with
  | Gone => 0
  | Counted batch | Enqueued batch => 1 + Z.of_nat (length batch)
  | _ => 1
  end.

(** The links the engine has not done with: those in the channel, those
    left of the batch ranged over, and what the workers stand for. *)
Definition outstanding (s : engine) : Z :=
  Z.of_nat (length (concat (linksCh s))) + Z.of_nat (length (links s))
  + total weight (workers (vars s)).

(** Workers whose results count: started before [stop] was set. *)
Definition counts (w : worker) : Z :=
  if stopSentinel w then 0 else 1.

(** Workers that are past [enqueueResults] or have returned without it. *)
Definition late (w : worker) : Z :=
  match pc w with
  | Started | Holding | Found _ | Counted _ => 0
  | _ => counts w
  end.

End CrawlPage.

End Engine.

(** Checks over a range of negative values, decided by evaluation: the
    argument [randDelay] gives to [rand.Int63n] at [value]. *)
Module RulesChecks.

Definition randDelay_span_at (value : Z) : bool :=
  let max := Go.fmul Go.f1_5 (Go.float64_of_int64 value) in
  let min := Go.fmul Go.f0_5 (Go.float64_of_int64 value) in
  Go.int64_of_float64 (Go.fsub max min) =? value.

End RulesChecks.

(** ** Fixtures

    Implementations of the library interfaces on a handful of inputs, for
    the examples: URLs with a scheme, a host, a path and a query (no user
    information, opaque part, fragment, escaping or dot segments), on which
    the methods below return what net/url returns. *)

Module Fixture.

Record FURL : Type := {
  fScheme : string;
  fHost : string;
  fPath : string;
  fRawQuery : string
}.

Definition mk (scheme host path query : string) : FURL :=
  {| fScheme := scheme; fHost := host; fPath := path; fRawQuery := query |}.

Definition nonempty (s : string) : bool := negb (String.eqb s "").

Definition with_query (s query : string) : string :=
  if nonempty query then (s ++ "?" ++ query)%string else s.

Definition FString (u : FURL) : string :=
  let scheme := if nonempty (fScheme u) then (fScheme u ++ ":")%string else ""%string in
  let authority :=
    if nonempty (fScheme u) || nonempty (fHost u)
    then ((if nonempty (fHost u) || nonempty (fPath u) then "//" else "")
          ++ fHost u)%string
    else ""%string in
  let slash :=
    if nonempty (fPath u) && negb (String.prefix "/" (fPath u))
       && nonempty (fHost u)
    then "/"%string else ""%string in
  with_query (scheme ++ authority ++ slash ++ fPath u)%string (fRawQuery u).

Definition FRequestURI (u : FURL) : string :=
  with_query (if nonempty (fPath u) then fPath u else "/"%string) (fRawQuery u).

(** The host without its port. *)
Fixpoint before_colon (s : string) : string :=
  match s with
  | EmptyString => EmptyString
  | String c rest =>
      if Ascii.eqb c ":"%char then EmptyString else String c (before_colon rest)
  end.

(** Up to the first [c], and whether there is one. *)
Fixpoint before (c : ascii) (s : string) : string :=
  match s with
  | EmptyString => EmptyString
  | String c' rest =>
      if Ascii.eqb c' c then EmptyString else String c' (before c rest)
  end.

Fixpoint has (c : ascii) (s : string) : bool :=
  match s with
  | EmptyString => false
  | String c' rest => Ascii.eqb c' c || has c rest
  end.

(** [Hostname]: without a colon the host as it is; a bracketed IPv6
    literal without its brackets; otherwise the host up to its colon. *)
Definition FHostname (u : FURL) : string :=
  let host := fHost u in
  if negb (has ":" host) then host
  else if has "]" host
  then match before "]" host with
       | String "[" address => address
       | inside => inside
       end
  else before_colon host.

(** The directory of a path: up to and with its last slash. *)
Fixpoint dir (s : string) : string :=
  match s with
  | EmptyString => EmptyString
  | String c rest =>
      let d := dir rest in
      if nonempty d || Ascii.eqb c "/"%char then String c d else EmptyString
  end.

Definition FResolveReference (base ref : FURL) : FURL :=
  let scheme := if nonempty (fScheme ref) then fScheme ref else fScheme base in
  if nonempty (fScheme ref) || nonempty (fHost ref)
  then mk scheme (fHost ref) (fPath ref) (fRawQuery ref)
  else if String.prefix "/" (fPath ref)
  then mk scheme (fHost base) (fPath ref) (fRawQuery ref)
  else if nonempty (fPath ref)
  then mk scheme (fHost base)
          ((if nonempty (dir (fPath base)) then dir (fPath base) else "/")
           ++ fPath ref)%string
          (fRawQuery ref)
  else mk scheme (fHost base) (fPath base)
          (if nonempty (fRawQuery ref) then fRawQuery ref else fRawQuery base).

(** [url.Parse] on the strings of the examples; a lone colon has no
    scheme before it, which net/url refuses. Strings outside the table are
    not used. *)
Definition parse_table : list (string * FURL) :=
  [ ("http://example.com", mk "http" "example.com" "" "");
    ("http://example.com/", mk "http" "example.com" "/" "");
    ("http://example.com/a", mk "http" "example.com" "/a" "");
    ("http://example.com/a?x=1", mk "http" "example.com" "/a" "x=1");
    ("http://example.com/b", mk "http" "example.com" "/b" "");
    ("http://example.com/robots.txt", mk "http" "example.com" "/robots.txt" "");
    ("http://example.com:8080/a", mk "http" "example.com:8080" "/a" "");
    ("http://sub.example.com/a", mk "http" "sub.example.com" "/a" "");
    ("https://other.org/", mk "https" "other.org" "/" "");
    ("https://other.org/robots.txt", mk "https" "other.org" "/robots.txt" "");
    ("example.com", mk "" "" "example.com" "");
    ("/robots.txt", mk "" "" "/robots.txt" "");
    ("/a", mk "" "" "/a" "");
    ("/c", mk "" "" "/c" "");
    ("b", mk "" "" "b" "") ].

Definition FParse (s : string) : result FURL :=
  match find (fun kv => String.eqb kv.1 s) parse_table with
  | Some kv => Ok kv.2
  | None =>
      if String.eqb s ":" then Err "missing protocol scheme"
      else Err "not a URL of the examples"
  end.

#[export] Instance furl : url.API := {|
  url.URL := FURL;
  url.Parse := FParse;
  url.String := FString;
  url.RequestURI := FRequestURI;
  url.Hostname := FHostname;
  url.ResolveReference := FResolveReference;
  url.Scheme := fScheme;
  url.Host := fHost;
  url.Path := fPath;
  url.set_Scheme := fun s u => mk s (fHost u) (fPath u) (fRawQuery u)
|}.

(** robots.txt: a group built from its [Disallow] prefixes, and the data
    of a file as its groups by user agent (in lower case, as are the agents
    of the examples). [FromResponse] follows the library's treatment of the
    status: 2xx is parsed, and an empty body gives data without groups; 4xx
    and 5xx give the library's allow-all and disallow-all data, which have
    no groups either (their flags are read by [TestAgent], which the crawler
    does not call); any other status is an error. The first robots.txt of
    the examples is [User-agent: * / Disallow: /a? / Crawl-delay: 2]; bodies
    outside the examples are not used. *)
Definition group (disallow : list string) (delay : time.Duration)
    : robotstxt.Group :=
  {| robotstxt.Test := fun path =>
       negb (existsb (fun rule => String.prefix rule path) disallow);
     robotstxt.CrawlDelay := delay |}.

Definition robots_body : string := "robots.txt of the examples".

(** A second robots.txt: [User-agent: googlebot / Disallow: /]. *)
Definition robots_googlebot : string := "robots.txt for googlebot".

Definition FFromResponse (resp : http.Response)
    : result (list (string * robotstxt.Group)) :=
  let code := http.StatusCode resp in
  if (200 <=? code) && (code <? 300) then
    if String.eqb (http.Body resp) robots_body
    then Ok [("*"%string, group ["/a?"%string] (2 * time.Second))]
    else if String.eqb (http.Body resp) robots_googlebot
    then Ok [("googlebot"%string, group ["/"%string] 0)]
    else if String.eqb (http.Body resp) ""
    then Ok []
    else Err "not a robots.txt of the examples"
  else if (400 <=? code) && (code <? 500) then Ok []
  else if (500 <=? code) && (code <? 600) then Ok []
  else Err "Unexpected status".

(** The search of [FindGroup]: the group of [*] is the weakest match
    ([prefixLen = 1]); a group whose agent is a prefix of the agent asked
    for replaces the match when its agent is longer than [prefixLen]. *)
Definition Fmatching (data : list (string * robotstxt.Group))
    (agent : string) : option robotstxt.Group :=
  let star :=
    match find (fun kv => String.eqb kv.1 "*") data with
    | Some kv => (Some kv.2, 1%nat)
    | None => (None, 0%nat)
    end in
  (foldl (fun found kv =>
            if negb (String.eqb kv.1 "*") && String.prefix kv.1 agent
               && (found.2 <? String.length kv.1)%nat
            then (Some kv.2, String.length kv.1)
            else found)
         star data).1.

(** [if ret == nil { return emptyGroup }]. *)
Definition FFindGroup (data : list (string * robotstxt.Group))
    (agent : string) : option robotstxt.Group :=
  Some (default robotstxt.emptyGroup (Fmatching data agent)).

#[export] Instance frobots : robotstxt.API := {|
  robotstxt.RobotsData := list (string * robotstxt.Group);
  robotstxt.FromResponse := FFromResponse;
  robotstxt.FindGroup := FFindGroup
|}.

#[export] Instance fpinned : robotstxt.Pinned := {|
  robotstxt.matching := Fmatching;
  robotstxt.FindGroup_matching := fun _ _ => eq_refl
|}.

(** Pages, named by their body. [page_one] stands for a canonical link
    to [https://other.org/], an anchor to [/a], an anchor to [b], the anchor
    to [/a] again and an image; [page_two] for anchors to [/a] and [/c]. *)
Definition el (tag : string) (attrs : list (string * string))
    : goquery.Element :=
  {| goquery.tag := tag; goquery.attrs := attrs |}.

Definition page_one : goquery.Document :=
  [ el "link" [("rel", "canonical"); ("href", "https://other.org/")];
    el "a" [("href", "/a")];
    el "a" [("href", "b")];
    el "a" [("href", "/a")];
    el "img" [("src", "/a.png")] ]%string.

Definition page_two : goquery.Document :=
  [ el "a" [("href", "/a")]; el "a" [("href", "/c")] ]%string.

#[export] Instance fgoquery : goquery.API := {|
  goquery.NewDocumentFromReader := fun body =>
    if String.eqb body "page one" then Ok page_one
    else if String.eqb body "page two" then Ok page_two
    else Err "unexpected EOF"
|}.

(** A server: 200 with [page one] at [/a], the robots.txt of the examples,
    404 at [/b], and no answer anywhere else. *)
Definition response (code : Z) (status body : string) : http.Response :=
  {| http.StatusCode := code; http.Status := status; http.Body := body |}.

Definition fclient : http.Client := fun req =>
  let target := FString (http.Target req) in
  if String.eqb target "http://example.com/a"
  then (1500 * time.Millisecond, Ok (response 200 "200 OK" "page one"))
  else if String.eqb target "http://example.com/robots.txt"
  then (20 * time.Millisecond, Ok (response 200 "200 OK" robots_body))
  else if String.eqb target "http://example.com/b"
  then (30 * time.Millisecond, Ok (response 404 "404 Not Found" ""))
  else (10 * time.Second, Err "context deadline exceeded").

(** Values for the examples. *)
Definition base : FURL := mk "http" "example.com" "/" "".

(** Rules for [http://example.com/] with a fixed delay of 100 ms. *)
Definition rules0 : Rules.CrawlingRules :=
  Rules.NewCrawlingRules base Cache.newMemoryCache (100 * time.Millisecond).

(** The same after the robots.txt of the examples was loaded. *)
Definition rules_robots : Rules.CrawlingRules :=
  {| Rules.baseDomain := base; Rules.cache := Cache.newMemoryCache;
     Rules.robotsGroup := Some (group ["/a?"%string] (2 * time.Second));
     Rules.fixedDelay := 100 * time.Millisecond; Rules.lastDelay := 0 |}.

Definition link_a : FURL := mk "http" "example.com" "/a" "".
Definition link_a_query : FURL := mk "http" "example.com" "/a" "x=1".
Definition link_sub : FURL := mk "http" "sub.example.com" "/a" "".

(** A random source whose values are all 50. *)
Definition rng50 : rand.Rand := {| rand.draws := fun _ => 50; rand.pos := 0 |}.

(** A fetcher over the server of the fixtures. *)
Definition fetcher0 : Rules.Fetcher :=
  {| Rules.Fetch := Fetcher.Fetch
                {| Fetcher.userAgent := "test-agent"; Fetcher.parser := None;
                   Fetcher.client := fclient |} |}.

(** The same server with the robots.txt for googlebot. *)
Definition fetcher_googlebot : Rules.Fetcher :=
  {| Rules.Fetch := Fetcher.Fetch
                {| Fetcher.userAgent := "test-agent"; Fetcher.parser := None;
                   Fetcher.client := fun req =>
                     if String.eqb (FString (http.Target req))
                                   "http://example.com/robots.txt"
                     then (20 * time.Millisecond,
                           Ok (response 200 "200 OK" robots_googlebot))
                     else fclient req |} |}.

(** A parser that returns one link, and fetchers with and without it. *)
Definition one_link : Fetcher.Parser :=
  {| Fetcher.Parse := fun baseURL body =>
       (Some [mk "http" "example.com" "/c" ""], None) |}.

Definition fetcher1 : Fetcher.stdHttpFetcher :=
  {| Fetcher.userAgent := "test-agent"; Fetcher.parser := Some one_link;
     Fetcher.client := fclient |}.

Definition fetcher_no_parser : Fetcher.stdHttpFetcher :=
  {| Fetcher.userAgent := "test-agent"; Fetcher.parser := None;
     Fetcher.client := fclient |}.

End Fixture.

(** More values for the examples. *)
Module Fixture2.

Import Fixture.

(** Rules with a negative fixed delay, and rules for another seed. *)
Definition rules_negative : Rules.CrawlingRules :=
  Rules.NewCrawlingRules base Cache.newMemoryCache (-100 * time.Millisecond).

Definition other : FURL := mk "https" "other.org" "/" "".

Definition rules_other : Rules.CrawlingRules :=
  Rules.NewCrawlingRules other Cache.newMemoryCache (100 * time.Millisecond).

Definition link_b : FURL := mk "http" "example.com" "/b" "".
Definition link_c : FURL := mk "http" "example.com" "/c" "".

(** A random source that counts: 0, 1, 2, ... *)
Definition rng_count : rand.Rand :=
  {| rand.draws := Z.of_nat; rand.pos := 7 |}.

(** The serialisation of a result, for the examples: the URL and the
    links, separated by blanks. *)
Definition lines (res : Engine.ParsedResult) : string :=
  foldl (fun acc l => (acc ++ " " ++ l)%string)
        (Engine.URL res) (Engine.Links_ res).

(** A producer that accepts everything, and one that is down. *)
Definition queue_up : Engine.Producer :=
  {| Engine.Produce := fun _ => None |}.
Definition queue_down : Engine.Producer :=
  {| Engine.Produce := fun _ => Some "closed"%string |}.

(** A parser over the pages of the fixtures, in the state [p]. *)
Definition goquery_parser (p : Parser.GoqueryParser) : Fetcher.Parser :=
  {| Fetcher.Parse := fun baseURL body => (Parser.Parse p baseURL body).1 |}.

Definition fetcher_pages : Fetcher.stdHttpFetcher :=
  {| Fetcher.userAgent := "test-agent";
     Fetcher.parser := Some (goquery_parser Parser.NewGoqueryParser);
     Fetcher.client := fclient |}.

(** Settings with a depth limit of 2, and without one. *)
Definition settings2 : Engine.CrawlerSettings :=
  {| Engine.Concurrency := 1; Engine.MaxDepth := 2 |}.
Definition settings_unlimited : Engine.CrawlerSettings :=
  {| Engine.Concurrency := 1; Engine.MaxDepth := 0 |}.

(** A crawl of [base]: worker 0 fetches the root and finds [/a] and [/b];
    worker 1 fetches [/a] and finds [/c]; worker 2 fetches [/b], which
    answers 404. Each worker runs to its end before the next step of the
    main loop. *)
Definition crawl : list Engine.action :=
  [ Engine.Receive; Engine.Range;
    Engine.Work 0;
    Engine.Fetched 0 (20 * time.Millisecond) (Some [link_a; link_b]) None;
    Engine.Work 0; Engine.Work 0; Engine.Work 0;
    Engine.Work 0; Engine.Work 0; Engine.Work 0;
    Engine.Receive; Engine.Range; Engine.Range;
    Engine.Work 1;
    Engine.Fetched 1 (1500 * time.Millisecond) (Some [link_c]) None;
    Engine.Work 1; Engine.Work 1; Engine.Work 1;
    Engine.Work 1; Engine.Work 1; Engine.Work 1;
    Engine.Work 2;
    Engine.Fetched 2 (30 * time.Millisecond) None
                   (Some "fetching links from http://example.com/b failed"%string);
    Engine.Work 2; Engine.Work 2; Engine.Work 2 ].

(** A crawl whose root does not answer. *)
Definition crawl_down : list Engine.action :=
  [ Engine.Receive; Engine.Range;
    Engine.Work 0;
    Engine.Fetched 0 (10 * time.Second) None
                   (Some "context deadline exceeded"%string);
    Engine.Work 0; Engine.Work 0; Engine.Work 0 ].

(** The engine after a schedule (the engine as it began, should the
    schedule not run). *)
Definition after (settings : Engine.CrawlerSettings)
    (schedule : list Engine.action) : Engine.engine :=
  default (Engine.boot rules0 rng50 base)
          (Engine.run lines settings queue_up
                      (Engine.boot rules0 rng50 base) schedule).

End Fixture2.

(** * Properties *)

(** ** binary64 on small integers *)

Module FloatProps.

Import Go.

Lemma digits2_pos_bounds (m : positive) :
  2 ^ (Zpos (digits2_pos m) - 1) <= Zpos m < 2 ^ Zpos (digits2_pos m).
Proof.
  induction m as [m IH|m IH|]; cbn [digits2_pos].
  - rewrite Pos2Z.inj_succ.
    replace (Z.succ (Z.pos (digits2_pos m)) - 1) with (Z.pos (digits2_pos m) - 1 + 1) by lia.
    rewrite Z.pow_succ_r by lia. destruct (digits2_pos m) eqn:E.
    all: rewrite Z.pow_add_r in * by lia; lia.
  - rewrite Pos2Z.inj_succ.
    replace (Z.succ (Z.pos (digits2_pos m)) - 1) with (Z.pos (digits2_pos m) - 1 + 1) by lia.
    rewrite Z.pow_succ_r by lia. destruct (digits2_pos m) eqn:E.
    all: rewrite Z.pow_add_r in * by lia; lia.
  - simpl. lia.
Qed.

Lemma iter_xO_Z (m k : positive) :
  Zpos (Pos.iter xO m k) = Zpos m * 2 ^ Zpos k.
Proof.
  induction k as [|k IH] using Pos.peano_ind.
  - simpl. lia.
  - rewrite Pos.iter_succ, Pos2Z.inj_succ, Z.pow_succ_r by lia.
    rewrite Pos2Z.inj_xO, IH. lia.
Qed.

Lemma iter_xO_digits (m k : positive) :
  digits2_pos (Pos.iter xO m k) = (digits2_pos m + k)%positive.
Proof.
  induction k as [|k IH] using Pos.peano_ind.
  - simpl. lia.
  - rewrite Pos.iter_succ. cbn [digits2_pos]. rewrite IH. lia.
Qed.

(** A mantissa of 53 bits with an exponent in range is not rounded. *)
Lemma binary_round_aux_exact (s : bool) (mz : positive) (ez : Z) :
  Zpos (digits2_pos mz) = 53 -> -1074 <= ez <= 971 ->
  binary_round_aux prec emax s (Zpos mz) ez loc_Exact = S754_finite s mz ez.
Proof.
  intros Hd He. unfold binary_round_aux, shr_fexp.
  cbn [Zdigits2 shr_record_of_loc]. rewrite Hd.
  assert (fexp prec emax (53 + ez) = ez) as Hf.
  { unfold fexp, SpecFloat.emin, prec, emax. lia. }
  rewrite Hf, Z.sub_diag. cbn [shr shr_m loc_of_shr_record round_nearest_even Zdigits2].
  rewrite Hd, Hf, Z.sub_diag. cbn [shr shr_m].
  unfold prec, emax. rewrite (proj2 (Z.leb_le ez (1024 - 53))) by lia. done.
Qed.

Lemma float64_of_pos (m : positive) :
  Zpos m < 2 ^ 53 ->
  float64_of_int64 (Zpos m) = S754_finite false (mantissa m) (exponent m).
Proof.
  intros Hm. pose proof (digits2_pos_bounds m) as Hb.
  assert (Zpos (digits2_pos m) <= 53) as Hd.
  { destruct (Z.le_gt_cases (Zpos (digits2_pos m)) 53) as [|Hgt]; [done|].
    assert (2 ^ 53 <= 2 ^ (Zpos (digits2_pos m) - 1))
      by (apply Z.pow_le_mono_r; lia). lia. }
  unfold float64_of_int64, binary_normalize, binary_round, shl_align.
  assert (fexp prec emax (Zpos (digits2_pos m) + 0) = Zpos (digits2_pos m) - 53) as Hf.
  { unfold fexp, SpecFloat.emin, prec, emax. lia. }
  rewrite Hf. unfold mantissa, exponent.
  replace (Z.pos (digits2_pos m) - 53 - 0) with (- (53 - Z.pos (digits2_pos m))) by lia.
  destruct (53 - Z.pos (digits2_pos m)) as [|k|k] eqn:Ek; [| |lia].
  - change (- 0) with 0. cbv beta iota zeta.
    rewrite binary_round_aux_exact; [|lia|lia].
    f_equal. lia.
  - change (- Z.pos k) with (Z.neg k). cbv beta iota zeta.
    rewrite binary_round_aux_exact.
    + f_equal. lia.
    + rewrite iter_xO_digits. lia.
    + lia.
Qed.

Lemma exponent_eq (m : positive) :
  Zpos m < 2 ^ 53 ->
  Zpos (digits2_pos m) <= 53
  /\ exponent m = Zpos (digits2_pos m) - 53
  /\ Zpos (mantissa m) = Zpos m * 2 ^ (53 - Zpos (digits2_pos m)).
Proof.
  intros Hm. pose proof (digits2_pos_bounds m) as Hb.
  assert (Zpos (digits2_pos m) <= 53) as Hd.
  { destruct (Z.le_gt_cases (Zpos (digits2_pos m)) 53) as [|Hgt]; [done|].
    assert (2 ^ 53 <= 2 ^ (Zpos (digits2_pos m) - 1))
      by (apply Z.pow_le_mono_r; lia). lia. }
  split; [done|]. split; [unfold exponent; lia|].
  unfold mantissa.
  destruct (53 - Z.pos (digits2_pos m)) as [|k|k] eqn:Ek; [| |lia].
  - simpl. lia.
  - apply iter_xO_Z.
Qed.

Lemma int64_of_float64_of_pos (m : positive) :
  Zpos m < 2 ^ 53 ->
  int64_of_float64 (float64_of_int64 (Zpos m)) = Zpos m.
Proof.
  intros Hm. rewrite float64_of_pos by done.
  destruct (exponent_eq m Hm) as (Hd & He & Hv).
  unfold int64_of_float64.
  assert (match exponent m with
          | Z.neg p => Z.shiftr (Z.pos (mantissa m)) (Z.pos p)
          | _ => Z.shiftl (Z.pos (mantissa m)) (exponent m)
          end = Zpos m) as ->.
  { rewrite Hv, He.
    destruct (Z.pos (digits2_pos m) - 53) as [|k|k] eqn:Ek; [|lia|].
    - replace (53 - Z.pos (digits2_pos m)) with 0 by lia.
      rewrite Z.shiftl_0_r. simpl. lia.
    - replace (53 - Z.pos (digits2_pos m)) with (Zpos k) by lia.
      rewrite Z.shiftr_div_pow2 by lia. rewrite Z.div_mul; [done|].
      apply Z.pow_nonzero; lia. }
  unfold min_int64, max_int64.
  rewrite (proj2 (Z.leb_le _ _)) by lia.
  rewrite (proj2 (Z.leb_le _ _)) by lia. done.
Qed.

Lemma compare_cont_Eq (p q : positive) :
  Pos.compare_cont Eq p q = (Zpos p ?= Zpos q).
Proof.
  rewrite Pos.compare_cont_spec. change (Zpos p ?= Zpos q) with (p ?= q)%positive.
  by destruct (p ?= q)%positive.
Qed.

(** The order of the floats of two positive integers below [2^53] is the
    order of the integers. *)
Lemma SFcompare_of_pos (a b : positive) :
  Zpos a < 2 ^ 53 -> Zpos b < 2 ^ 53 ->
  SFcompare (float64_of_int64 (Zpos a)) (float64_of_int64 (Zpos b))
  = Some (Zpos a ?= Zpos b).
Proof.
  intros Ha Hb. rewrite !float64_of_pos by done.
  destruct (exponent_eq a Ha) as (Hda & Hea & Hva).
  destruct (exponent_eq b Hb) as (Hdb & Heb & Hvb).
  pose proof (digits2_pos_bounds a) as Ba.
  pose proof (digits2_pos_bounds b) as Bb.
  cbn [SFcompare]. f_equal.
  destruct (Z.compare_spec (exponent a) (exponent b)) as [E|E|E].
  - rewrite compare_cont_Eq, Hva, Hvb.
    replace (Zpos (digits2_pos b)) with (Zpos (digits2_pos a)) by lia.
    assert (0 < 2 ^ (53 - Z.pos (digits2_pos a))) by (apply Z.pow_pos_nonneg; lia).
    destruct (Z.compare_spec (Zpos a) (Zpos b)) as [E'|E'|E'].
    + rewrite E'. apply Z.compare_refl.
    + apply Z.compare_lt_iff. nia.
    + apply Z.compare_gt_iff. nia.
  - symmetry. apply Z.compare_lt_iff.
    assert (2 ^ Zpos (digits2_pos a) <= 2 ^ (Zpos (digits2_pos b) - 1))
      by (apply Z.pow_le_mono_r; lia). lia.
  - symmetry. apply Z.compare_gt_iff.
    assert (2 ^ Zpos (digits2_pos b) <= 2 ^ (Zpos (digits2_pos a) - 1))
      by (apply Z.pow_le_mono_r; lia). lia.
Qed.

(** [int64(math.Max(float64(a), float64(b)))] for two integers of
    [[0, 2^53)] is the greater of the two. *)
Lemma math_Max_exact (a b : Z) :
  0 <= a < 2 ^ 53 -> 0 <= b < 2 ^ 53 ->
  int64_of_float64 (math_Max (float64_of_int64 a) (float64_of_int64 b))
  = Z.max a b.
Proof.
  intros Ha Hb.
  destruct a as [|a|a]; [| |lia]; destruct b as [|b|b]; try lia.
  - done.
  - rewrite Z.max_r by lia. rewrite <- (int64_of_float64_of_pos b) at 2 by lia.
    f_equal. rewrite (float64_of_pos b) by lia. done.
  - rewrite Z.max_l by lia. rewrite <- (int64_of_float64_of_pos a) at 2 by lia.
    f_equal. rewrite (float64_of_pos a) by lia. done.
  - unfold math_Max.
    assert (forall m, Zpos m < 2 ^ 53 ->
                      is_pos_inf (float64_of_int64 (Zpos m)) = false
                      /\ is_nan (float64_of_int64 (Zpos m)) = false
                      /\ is_zero (float64_of_int64 (Zpos m)) = false) as Hfin.
    { intros m Hm. by rewrite float64_of_pos. }
    destruct (Hfin a) as (-> & -> & ->); [lia|].
    destruct (Hfin b) as (-> & -> & _); [lia|]. cbn [orb andb].
    unfold SFltb. rewrite SFcompare_of_pos by lia.
    destruct (Z.compare_spec (Zpos b) (Zpos a)) as [E|E|E].
    + rewrite Z.max_r by lia. apply int64_of_float64_of_pos. lia.
    + rewrite Z.max_l by lia. apply int64_of_float64_of_pos. lia.
    + rewrite Z.max_r by lia. apply int64_of_float64_of_pos. lia.
Qed.

End FloatProps.

(** ** The visited cache *)

Module CacheProps.

Import Cache.

Lemma Contains_Set_same (ns k : string) (c : memoryCache) :
  Contains ns k (Set_ ns k c) = true.
Proof.
  unfold Contains, Set_.
  rewrite lookup_insert_eq. simpl.
  by rewrite lookup_insert_eq.
Qed.

Lemma Contains_Set_other (ns k ns' k' : string) (c : memoryCache) :
  (ns, k) ≠ (ns', k') ->
  Contains ns' k' (Set_ ns k c) = Contains ns' k' c.
Proof.
  intros Hne. unfold Contains, Set_.
  destruct (decide (ns = ns')) as [->|Hns].
  - assert (k ≠ k') as Hk by congruence.
    rewrite lookup_insert_eq. simpl.
    rewrite lookup_insert_ne by done.
    destruct (c !! ns') as [inner|]; [done | by rewrite lookup_empty].
  - by rewrite lookup_insert_ne.
Qed.

Lemma Contains_Set_mono (ns k ns' k' : string) (c : memoryCache) :
  Contains ns' k' c = true -> Contains ns' k' (Set_ ns k c) = true.
Proof.
  intros H. destruct (decide ((ns, k) = (ns', k'))) as [[= -> ->]|Hne].
  - apply Contains_Set_same.
  - by rewrite Contains_Set_other.
Qed.

Lemma Set_idempotent (ns k : string) (c : memoryCache) :
  Set_ ns k (Set_ ns k c) = Set_ ns k c.
Proof.
  unfold Set_. rewrite lookup_insert_eq, insert_insert_eq.
  by rewrite insert_insert_eq.
Qed.

(** What a cache contains after a run of [Set] calls: what it contained
    before, and the pairs that were set. *)
Lemma Contains_sets (calls : list (string * string)) (c : memoryCache)
    (ns k : string) :
  Contains ns k (sets c calls) = true <->
  Contains ns k c = true \/ (ns, k) ∈ calls.
Proof.
  revert c. induction calls as [|[ns0 k0] calls IH]; intros c; simpl.
  - split; [by left | intros [H|H]; [done | by apply elem_of_nil in H]].
  - unfold sets in *. simpl. rewrite IH. clear IH.
    rewrite elem_of_cons.
    destruct (decide ((ns0, k0) = (ns, k))) as [[= -> ->]|Hne].
    + rewrite Contains_Set_same. tauto.
    + rewrite Contains_Set_other by done.
      split; [intros [H|H]; auto | intros [H|[H|H]]; auto; congruence].
Qed.

Lemma Contains_new (ns k : string) : Contains ns k newMemoryCache = false.
Proof. unfold Contains, newMemoryCache. by rewrite lookup_empty. Qed.

(** C8. After [Set(ns, k)] the cache contains [k] under [ns], and it still
    does after any further calls of [Set]; a second [Set(ns, k)] changes
    nothing; [Set] is a total function, so it never fails; and in a cache
    that started empty, a namespace on which no [Set] was performed contains
    no key. *)
Theorem memoryCache_Set_Contains (c : memoryCache) (ns k : string) :
  Contains ns k (Set_ ns k c) = true
  /\ (forall more, Contains ns k (sets (Set_ ns k c) more) = true)
  /\ Set_ ns k (Set_ ns k c) = Set_ ns k c
  /\ Contains ns k (Set_ ns k (Set_ ns k c)) = true
  /\ (forall calls ns' k',
        ns' ∉ calls.*1 ->
        Contains ns' k' (sets newMemoryCache calls) = false).
Proof.
  split; [apply Contains_Set_same|].
  split.
  { intros more. apply Contains_sets. left. apply Contains_Set_same. }
  split; [apply Set_idempotent|].
  split; [rewrite Set_idempotent; apply Contains_Set_same|].
  intros calls ns' k' Hfresh.
  destruct (Contains ns' k' (sets newMemoryCache calls)) eqn:E; [|done].
  apply Contains_sets in E as [E|E].
  - by rewrite Contains_new in E.
  - exfalso. apply Hfresh. apply list_elem_of_fmap. by exists (ns', k').
Qed.

(** The test of the repository: [Set("test", "hello")], then the key is
    contained and ["world"] is not; and a namespace never set is empty
    while another one is filled. *)
Lemma memoryCache_Set_Contains_witness :
  Contains "test" "hello" (Set_ "test" "hello" newMemoryCache) = true
  /\ Contains "test" "world" (Set_ "test" "hello" newMemoryCache) = false
  /\ Contains "other" "hello"
       (sets newMemoryCache [("test", "hello"); ("test", "world")]%string)
     = false.
Proof.
  pose proof (memoryCache_Set_Contains newMemoryCache "test" "hello")
    as (H1 & _ & _ & _ & H5).
  split; [exact H1|].
  split; [by vm_compute|].
  apply H5. apply (bool_decide_unpack _). by vm_compute.
Defined.

End CacheProps.

(** ** The crawling rules *)

Module RulesProps.

Import Rules.

(** Splits the outcome of the first call of a sequence. *)
Ltac bind_cases H :=
  unfold mbind, Go.outcome_bind in H;
  repeat match type of H with
         | context [match ?m with Go.Ret _ => _ | Go.Panic _ => _ end] =>
             let E := fresh "E" in destruct m eqn:E; try discriminate H
         | context [let '(_, _) := ?p in _] => destruct p
         end.

Section Frames.
Context `{U : url.API} `{R : robotstxt.API}.

(** [Allowed] touches the cache and nothing else. *)
Lemma Allowed_frame (r : CrawlingRules) (link : url.URL) :
  baseDomain (Allowed r link).2 = baseDomain r
  /\ robotsGroup (Allowed r link).2 = robotsGroup r
  /\ fixedDelay (Allowed r link).2 = fixedDelay r
  /\ lastDelay (Allowed r link).2 = lastDelay r.
Proof. unfold Allowed. by case_match. Qed.

Lemma Allowed_cache_mono (r : CrawlingRules) (link : url.URL)
    (ns k : string) :
  Cache.Contains ns k (cache r) = true ->
  Cache.Contains ns k (cache (Allowed r link).2) = true.
Proof.
  intros H. unfold Allowed. case_match; [done|]. simpl.
  by apply CacheProps.Contains_Set_mono.
Qed.

(** After [Allowed(link)] the link is in the cache, under the base
    domain, whatever the call answered. *)
Lemma Allowed_records (r : CrawlingRules) (link : url.URL) :
  Cache.Contains (url.String (baseDomain r)) (url.String link)
                 (cache (Allowed r link).2) = true.
Proof.
  unfold Allowed. case_match eqn:E; [done|]. simpl.
  apply CacheProps.Contains_Set_same.
Qed.

(** A visited link is refused. *)
Lemma Allowed_visited (r : CrawlingRules) (link : url.URL) :
  Cache.Contains (url.String (baseDomain r)) (url.String link) (cache r)
  = true ->
  (Allowed r link).1 = false.
Proof. intros H. unfold Allowed. by rewrite H. Qed.

(** [randDelay] consumes at most one value of the source. *)
Lemma CrawlDelay_frame (r r' : CrawlingRules) (rng rng' : rand.Rand)
    (d : time.Duration) :
  CrawlDelay r rng = Go.Ret (d, r', rng') -> r' = r.
Proof.
  unfold CrawlDelay. intros H. bind_cases H.
  by injection H as _ <- _.
Qed.

Lemma UpdateLastDelay_frame (r : CrawlingRules) (t : time.Duration) :
  baseDomain (UpdateLastDelay r t) = baseDomain r
  /\ cache (UpdateLastDelay r t) = cache r
  /\ robotsGroup (UpdateLastDelay r t) = robotsGroup r
  /\ fixedDelay (UpdateLastDelay r t) = fixedDelay r.
Proof. done. Qed.

Lemma GetRobotsTxtGroup_frame (r r' : CrawlingRules) (f : Fetcher)
    (userAgent : string) (domain : url.URL) (b : bool) :
  GetRobotsTxtGroup r f userAgent domain = Go.Ret (b, r') ->
  baseDomain r' = baseDomain r /\ cache r' = cache r
  /\ fixedDelay r' = fixedDelay r /\ lastDelay r' = lastDelay r.
Proof.
  unfold GetRobotsTxtGroup. intros H.
  unfold mbind, Go.outcome_bind in H.
  repeat case_match; by simplify_eq.
Qed.

(** No call changes the base domain or removes a link from the cache. *)
Lemma step_keeps (st st' : CrawlingRules * rand.Rand) (o : op) :
  step st o = Go.Ret st' ->
  baseDomain st'.1 = baseDomain st.1
  /\ forall ns k, Cache.Contains ns k (cache st.1) = true ->
                  Cache.Contains ns k (cache st'.1) = true.
Proof.
  destruct st as [r rng]. destruct o; simpl; intros H.
  - injection H as <-. simpl. split; [apply Allowed_frame|].
    intros ns k. apply Allowed_cache_mono.
  - unfold mbind, Go.outcome_bind in H.
    destruct (CrawlDelay r rng) as [[[d r1] rng1]|] eqn:E; [|done].
    apply CrawlDelay_frame in E as ->. by injection H as <-.
  - by injection H as <-.
  - unfold mbind, Go.outcome_bind in H.
    destruct (GetRobotsTxtGroup r f userAgent domain) as [[b r1]|] eqn:E;
      [|done].
    apply GetRobotsTxtGroup_frame in E as (Hb & Hc & _).
    injection H as <-. simpl. rewrite Hb, Hc. done.
  - injection H as <-. simpl. split; [done|].
    intros ns k. apply CacheProps.Contains_Set_mono.
Qed.

Lemma exec_keeps (ops : list op) (st st' : CrawlingRules * rand.Rand) :
  exec st ops = Go.Ret st' ->
  baseDomain st'.1 = baseDomain st.1
  /\ forall ns k, Cache.Contains ns k (cache st.1) = true ->
                  Cache.Contains ns k (cache st'.1) = true.
Proof.
  revert st. induction ops as [|o ops IH]; intros st; simpl.
  - by intros [= ->].
  - intros H. unfold mbind, Go.outcome_bind in H.
    destruct (step st o) as [st1|] eqn:E; [|done].
    apply step_keeps in E as [Hb Hc]. apply IH in H as [Hb' Hc'].
    split; [congruence | auto].
Qed.

End Frames.

Section Statements.
Context `{U : url.API} `{R : robotstxt.API}.

(** C2. After a call of [Allowed(link)], whatever it answered, the link is
    in the cache under the base domain; and after any further calls on the
    rules (and any writes of other engines to the shared cache), it still
    is, and [Allowed(link)] answers false. *)
Theorem Allowed_consumes (r : CrawlingRules) (link : url.URL) :
  Cache.Contains (url.String (baseDomain r)) (url.String link)
                 (cache (Allowed r link).2) = true
  /\ forall ops rng r2 rng2,
       exec ((Allowed r link).2, rng) ops = Go.Ret (r2, rng2) ->
       Cache.Contains (url.String (baseDomain r2)) (url.String link)
                      (cache r2) = true
       /\ (Allowed r2 link).1 = false.
Proof.
  split; [apply Allowed_records|].
  intros ops rng r2 rng2 Hexec.
  apply exec_keeps in Hexec as [Hb Hc]. simpl in Hb, Hc.
  assert (Cache.Contains (url.String (baseDomain r2)) (url.String link)
                         (cache r2) = true) as Hin.
  { rewrite Hb. destruct (Allowed_frame r link) as (-> & _).
    apply Hc, Allowed_records. }
  split; [exact Hin | by apply Allowed_visited].
Qed.

(** C3, as the code has it. For a link that is not yet visited, [Allowed]
    answers true exactly when the robots group is unset or passes the
    request URI of the link (its path and query), and the link is
    in-domain: its host name is that of the base domain, or empty. A link
    with another, non-empty host name (a subdomain's, say) is refused. *)
Theorem Allowed_iff (r : CrawlingRules) (link : url.URL) :
  Cache.Contains (url.String (baseDomain r)) (url.String link) (cache r)
  = false ->
  ((Allowed r link).1 = true <-> robots_pass r link /\ in_domain r link)
  /\ (url.Hostname link <> url.Hostname (baseDomain r) ->
      url.Hostname link <> "" ->
      (Allowed r link).1 = false).
Proof.
  intros Hnew. unfold Allowed, robots_pass, in_domain, subdomain.
  rewrite Hnew.
  destruct (robotsGroup r) as [g|]; simpl.
  - rewrite andb_true_iff, orb_true_iff, !bool_decide_eq_true.
    split; [done|]. intros H1 H2.
    apply andb_false_iff. right. apply orb_false_iff.
    by rewrite !bool_decide_eq_false.
  - rewrite orb_true_iff, !bool_decide_eq_true.
    split; [tauto|]. intros H1 H2.
    apply orb_false_iff. by rewrite !bool_decide_eq_false.
Qed.

(** The outcomes of [GetRobotsTxtGroup], by what the fetch and the
    robots.txt library return. *)
Lemma GetRobotsTxtGroup_cases (r : CrawlingRules) (f : Fetcher)
    (userAgent : string) (domain u : url.URL) :
  url.Parse robotsTxtPath = Ok u ->
  GetRobotsTxtGroup r f userAgent domain =
  let '(_, res, err) := Fetch f (url.String (url.ResolveReference domain u)) in
  match err, res with
  | Some _, _ => Go.Ret (false, r)
  | None, None => Go.Panic "invalid memory address or nil pointer dereference"
  | None, Some resp =>
      if http.StatusCode resp =? http.StatusNotFound then Go.Ret (false, r)
      else match robotstxt.FromResponse resp with
           | Err _ => Go.Ret (false, r)
           | Ok body =>
               let g := robotstxt.FindGroup body userAgent in
               Go.Ret (match g with Some _ => true | None => false end,
                       {| baseDomain := baseDomain r; cache := cache r;
                          robotsGroup := g; fixedDelay := fixedDelay r;
                          lastDelay := lastDelay r |})
           end
  end.
Proof.
  intros Hparse. unfold GetRobotsTxtGroup. rewrite Hparse. simpl.
  destruct (Fetch f _) as [[el res] err].
  destruct err as [e|]; [done|]. by destruct res.
Qed.

(** C6, as the code has it. With [/robots.txt] a URL that parses: on a
    transport error, on status 404 and on a robots.txt that the library
    cannot parse, [GetRobotsTxtGroup] returns false and leaves the rules as
    they were, so that an unset [robotsGroup] stays unset. On a robots.txt
    that is fetched and parsed it stores the group [FindGroup] returns for
    the user agent and returns true, whether a group matches or not: with the
    library that [go.mod] requires, the group stored is the matching group,
    or the empty group, which allows every path, when none matches. It
    returns false in no other case than the three above. *)
Theorem GetRobotsTxtGroup_outcomes {P : robotstxt.Pinned}
    (r : CrawlingRules) (f : Fetcher) (userAgent : string)
    (domain u : url.URL) :
  url.Parse robotsTxtPath = Ok u ->
  let fetched := Fetch f (url.String (url.ResolveReference domain u)) in
  let call := GetRobotsTxtGroup r f userAgent domain in
  (forall e, fetched.2 = Some e -> call = Go.Ret (false, r))
  /\ (forall resp,
        fetched.1.2 = Some resp -> fetched.2 = None ->
        (http.StatusCode resp = http.StatusNotFound ->
         call = Go.Ret (false, r))
        /\ (forall e, http.StatusCode resp <> http.StatusNotFound ->
                      robotstxt.FromResponse resp = Err e ->
                      call = Go.Ret (false, r))
        /\ (forall body,
              http.StatusCode resp <> http.StatusNotFound ->
              robotstxt.FromResponse resp = Ok body ->
              call
              = Go.Ret (true,
                        {| baseDomain := baseDomain r; cache := cache r;
                           robotsGroup :=
                             Some (default robotstxt.emptyGroup
                                     (robotstxt.matching body userAgent));
                           fixedDelay := fixedDelay r;
                           lastDelay := lastDelay r |})
              /\ (robotstxt.matching body userAgent = None ->
                  call
                  = Go.Ret (true,
                            {| baseDomain := baseDomain r; cache := cache r;
                               robotsGroup := Some robotstxt.emptyGroup;
                               fixedDelay := fixedDelay r;
                               lastDelay := lastDelay r |}))))
  /\ (forall r', call = Go.Ret (false, r') ->
                 r' = r
                 /\ (fetched.2 <> None
                     \/ exists resp,
                          fetched.1.2 = Some resp
                          /\ (http.StatusCode resp = http.StatusNotFound
                              \/ exists e,
                                   robotstxt.FromResponse resp = Err e))).
Proof.
  intros Hparse fetched call.
  pose proof (GetRobotsTxtGroup_cases r f userAgent domain u Hparse) as Hc.
  fold call in Hc. fold fetched in Hc.
  destruct fetched as [[el res] err] eqn:Ef. simpl in *.
  split; [by intros e ->|].
  split.
  - intros resp -> ->.
    split; [|split].
    + intros H404. rewrite Hc.
      by rewrite (proj2 (Z.eqb_eq _ _) H404).
    + intros e Hne Herr. rewrite Hc, Herr.
      by rewrite (proj2 (Z.eqb_neq _ _) Hne).
    + intros body Hne Hok. rewrite Hc, Hok.
      rewrite (proj2 (Z.eqb_neq _ _) Hne).
      rewrite robotstxt.FindGroup_matching.
      split; [done|]. by intros ->.
  - intros r' Hcall. rewrite Hc in Hcall.
    destruct err as [e|]; [simplify_eq; split; [done | by left]|].
    destruct res as [resp|]; [|done].
    destruct (_ =? _) eqn:E404.
    { apply Z.eqb_eq in E404. simplify_eq. split; [done|]. right.
      exists resp. split; [done | by left]. }
    destruct (robotstxt.FromResponse resp) as [body|e] eqn:Ebody.
    + rewrite robotstxt.FindGroup_matching in Hcall. by simplify_eq.
    + simplify_eq. split; [done|]. right. exists resp.
      split; [done|]. right. by exists e.
Qed.

(** A check that holds on every element of a range holds on the range. *)
Lemma all_from_nat (f : Z -> bool) (n : nat) (z : Z) :
  all_from f n z = true ->
  forall x, z <= x < z + Z.of_nat n -> f x = true.
Proof.
  revert z. induction n as [|n IH]; intros z H x Hx; [lia|].
  simpl in H. destruct (f z) eqn:Ez; [|done].
  destruct (decide (x = z)) as [->|Hne]; [done|].
  apply (IH (z + 1)); [done | lia].
Qed.

Lemma all_from_spec (f : Z -> bool) (len z : Z) :
  all_from f (Z.to_nat len) z = true ->
  forall x, z <= x < z + len -> f x = true.
Proof.
  intros H x Hx. apply (all_from_nat f (Z.to_nat len) z H). lia.
Qed.

Lemma randDelay_parts (value : Z) :
  1 <= value <= 10000 -> randDelay_parts_at value = true.
Proof.
  intros H. apply (all_from_spec randDelay_parts_at 10000 1); [|lia].
  vm_compute. reflexivity.
Qed.

(** [randDelay] for a fixed delay of 1 ms to 10 s: the value drawn from
    [[0, value)] is added to [1.5 * value]. *)
Lemma randDelay_returns (value : Z) (rng : rand.Rand) :
  1 <= value <= 10000 ->
  randDelay value rng =
  Go.Ret (Go.int64_add (rand.draws rng (rand.pos rng) mod value)
                       (3 * value / 2),
          {| rand.draws := rand.draws rng; rand.pos := S (rand.pos rng) |}).
Proof.
  intros H. pose proof (randDelay_parts value H) as Hp.
  unfold randDelay_parts_at in Hp. apply andb_true_iff in Hp as [Hn Hb].
  apply Z.eqb_eq in Hn, Hb.
  unfold randDelay. rewrite (proj2 (Z.eqb_neq value 0)) by lia.
  rewrite Hn, Hb. unfold rand.Int63n.
  by rewrite (proj2 (Z.leb_gt value 0)) by lia.
Qed.

Lemma squared_ms (ms : Z) :
  0 <= ms <= 10000 ->
  squared (ms * time.Millisecond)
  = whole_squared_seconds (ms * time.Millisecond).
Proof.
  intros H. apply Z.eqb_eq.
  apply (all_from_spec squared_at 10001 0); [|lia].
  vm_compute. reflexivity.
Qed.

(** What the code stores. For a response time of a whole number of
    milliseconds up to 10 s, [UpdateLastDelay] sets [lastDelay] to the
    square of the time in seconds cut down to a whole number of seconds, and
    leaves the other fields alone. *)
Lemma UpdateLastDelay_whole_seconds (r : CrawlingRules) (ms : Z) :
  0 <= ms <= 10000 ->
  lastDelay (UpdateLastDelay r (ms * time.Millisecond))
  = (ms * ms / 1000000) * time.Second
  /\ lastDelay (UpdateLastDelay r (ms * time.Millisecond))
     = whole_squared_seconds (ms * time.Millisecond)
  /\ baseDomain (UpdateLastDelay r (ms * time.Millisecond)) = baseDomain r
  /\ cache (UpdateLastDelay r (ms * time.Millisecond)) = cache r
  /\ robotsGroup (UpdateLastDelay r (ms * time.Millisecond)) = robotsGroup r
  /\ fixedDelay (UpdateLastDelay r (ms * time.Millisecond)) = fixedDelay r.
Proof.
  intros H. simpl. rewrite (squared_ms ms H).
  repeat split.
  unfold whole_squared_seconds, time.Millisecond, time.Second.
  f_equal.
  replace (ms * 1000000 * (ms * 1000000))
    with (ms * ms * 1000000000000) by lia.
  replace (1000000000 * 1000000000)
    with (1000000 * 1000000000000) by lia.
  by rewrite Z.div_mul_cancel_r by lia.
Qed.

(** The random part of the delay lies in [[1.5 * value, 2.5 * value)]. *)
Lemma randDelay_range (value : Z) (rng : rand.Rand) :
  1 <= value <= 10000 ->
  exists d rng',
    randDelay value rng = Go.Ret (d, rng')
    /\ 3 * value / 2 <= d < 3 * value / 2 + value.
Proof.
  intros H. rewrite (randDelay_returns value rng H).
  eexists _, _. split; [done|].
  pose proof (Z.mod_pos_bound (rand.draws rng (rand.pos rng)) value).
  assert (0 <= 3 * value / 2 <= 15000)
    by (split; [apply Z.div_pos|apply Z.div_le_upper_bound]; lia).
  unfold Go.int64_add, Go.wrap64.
  rewrite Z.mod_small by lia. lia.
Qed.

(** With no fixed delay nothing is drawn. *)
Lemma CrawlDelay_no_fixed_delay (r : CrawlingRules) (rng : rand.Rand) :
  time.Milliseconds (fixedDelay r) = 0 ->
  exists d, CrawlDelay r rng = Go.Ret (d, r, rng).
Proof. intros H. unfold CrawlDelay, randDelay. rewrite H. by eexists. Qed.

Lemma CrawlDelay_returns (r : CrawlingRules) (rng : rand.Rand) :
  0 <= time.Milliseconds (fixedDelay r) <= 10000 ->
  exists d rng', CrawlDelay r rng = Go.Ret (d, r, rng').
Proof.
  intros H.
  destruct (decide (time.Milliseconds (fixedDelay r) = 0)) as [H0|H0].
  - destruct (CrawlDelay_no_fixed_delay r rng H0) as [d Hd]. eauto.
  - unfold CrawlDelay. rewrite randDelay_returns by lia. simpl. eauto.
Qed.

(** The greater of two numbers of milliseconds, as [CrawlDelay] computes
    it through [float64]. *)
Lemma max_ms_exact (a b : Z) :
  0 <= a < 2 ^ 43 -> 0 <= b < 2 ^ 43 ->
  max_ms a b = Z.max a b * time.Millisecond
  /\ time.Milliseconds (max_ms a b) = Z.max a b.
Proof.
  intros Ha Hb.
  assert (2 ^ 43 < 2 ^ 53) by (apply Z.pow_lt_mono_r; lia).
  assert (2 ^ 43 = 8796093022208) as E43 by done.
  unfold max_ms. rewrite FloatProps.math_Max_exact by lia.
  unfold time.mul, time.Milliseconds, Go.int64_mul, Go.int64_div, Go.wrap64,
    time.Millisecond.
  rewrite (Z.mod_small (Z.max a b * 1000000 + _)) by lia.
  split; [lia|].
  replace (Z.max a b * 1000000 + 9223372036854775808 - 9223372036854775808)
    with (Z.max a b * 1000000) by lia.
  rewrite Z.quot_mul by lia. rewrite Z.mod_small by lia. lia.
Qed.

(** The value of [CrawlDelay], for a fixed delay of up to 10 s and
    delays of up to [2^43] ms: the greatest of the last delay, the random
    delay and the crawl delay of the robots group, in milliseconds; the
    random delay is 0 without a fixed delay, and otherwise lies in
    [[1.5 * fixed, 2.5 * fixed)]. *)
Lemma CrawlDelay_value (r : CrawlingRules) (rng : rand.Rand) :
  let fixed := time.Milliseconds (fixedDelay r) in
  let robots :=
    time.Milliseconds (match robotsGroup r with
                       | Some g => robotstxt.CrawlDelay g
                       | None => 0
                       end) in
  let last := time.Milliseconds (lastDelay r) in
  0 <= fixed <= 10000 -> 0 <= robots < 2 ^ 43 -> 0 <= last < 2 ^ 43 ->
  exists random rng',
    CrawlDelay r rng
    = Go.Ret (Z.max last (Z.max random robots) * time.Millisecond, r, rng')
    /\ (fixed = 0 -> random = 0 /\ rng' = rng)
    /\ (0 < fixed -> 3 * fixed / 2 <= random < 3 * fixed / 2 + fixed).
Proof.
  intros fixed robots last Hf Hr Hl.
  assert (2 ^ 43 = 8796093022208) as E43 by done.
  assert (exists random rng',
            randDelay fixed rng = Go.Ret (random, rng')
            /\ (fixed = 0 -> random = 0 /\ rng' = rng)
            /\ (0 < fixed -> 3 * fixed / 2 <= random < 3 * fixed / 2 + fixed))
    as (random & rng' & Hrand & H0 & Hpos).
  { destruct (decide (fixed = 0)) as [E|E].
    - exists 0, rng. rewrite E. split; [done|]. split; [done|lia].
    - destruct (randDelay_range fixed rng) as (d & rng' & Hd & Hb); [lia|].
      exists d, rng'. split; [done|]. split; [lia|done]. }
  assert (0 <= random < 25000) as Hrandom.
  { destruct (decide (fixed = 0)) as [E|E]; [destruct (H0 E); lia|].
    assert (0 <= 3 * fixed / 2 <= 15000)
      by (split; [apply Z.div_pos|apply Z.div_le_upper_bound]; lia).
    lia. }
  exists random, rng'. split; [|done].
  unfold CrawlDelay. fold fixed. rewrite Hrand. simpl.
  assert (time.Milliseconds (time.mul random time.Millisecond) = random)
    as ->.
  { unfold time.mul, time.Milliseconds, Go.int64_mul, Go.int64_div,
      Go.wrap64, time.Millisecond.
    rewrite (Z.mod_small (random * 1000000 + _)) by lia.
    replace (random * 1000000 + 9223372036854775808 - 9223372036854775808)
      with (random * 1000000) by lia.
    rewrite Z.quot_mul by lia. rewrite Z.mod_small by lia. lia. }
  fold robots. fold last.
  destruct (max_ms_exact random robots) as [_ ->]; [lia|lia|].
  destruct (max_ms_exact last (Z.max random robots)) as [-> _]; [lia|lia|].
  done.
Qed.

(** Without a fixed delay, [CrawlDelay] is the greater of the crawl
    delay of the robots group and the last delay, in milliseconds. *)
Lemma CrawlDelay_no_fixed_delay_value (r : CrawlingRules) (rng : rand.Rand) :
  let robots :=
    time.Milliseconds (match robotsGroup r with
                       | Some g => robotstxt.CrawlDelay g
                       | None => 0
                       end) in
  let last := time.Milliseconds (lastDelay r) in
  time.Milliseconds (fixedDelay r) = 0 ->
  0 <= robots < 2 ^ 43 -> 0 <= last < 2 ^ 43 ->
  randDelay (time.Milliseconds (fixedDelay r)) rng = Go.Ret (0, rng)
  /\ CrawlDelay r rng
     = Go.Ret (Z.max robots last * time.Millisecond, r, rng).
Proof.
  intros robots last H0 Hr Hl. split; [by rewrite H0|].
  destruct (CrawlDelay_value r rng) as (random & rng' & Hc & Hz & _);
    [lia | done | done |].
  destruct (Hz H0) as [-> ->]. rewrite Hc. fold robots last.
  by replace (Z.max last (Z.max 0 robots)) with (Z.max robots last) by lia.
Qed.

(** C10. [CrawlDelay] is a query: when it returns, the rules it returns
    are the rules it was given, so [baseDomain], the cache, [robotsGroup],
    [fixedDelay] and [lastDelay] are unchanged; and it does return for every
    fixed delay of up to 10 s. The other three operations do write: [Allowed]
    to the cache, [UpdateLastDelay] to [lastDelay], and [GetRobotsTxtGroup]
    to [robotsGroup]. *)
Theorem CrawlDelay_read_only (r : CrawlingRules) (rng : rand.Rand) :
  (forall d r' rng',
     CrawlDelay r rng = Go.Ret (d, r', rng') ->
     r' = r
     /\ baseDomain r' = baseDomain r /\ cache r' = cache r
     /\ robotsGroup r' = robotsGroup r /\ fixedDelay r' = fixedDelay r
     /\ lastDelay r' = lastDelay r)
  /\ (0 <= time.Milliseconds (fixedDelay r) <= 10000 ->
      exists d rng', CrawlDelay r rng = Go.Ret (d, r, rng'))
  /\ (forall link,
        Cache.Contains (url.String (baseDomain r)) (url.String link) (cache r)
        = false ->
        cache (Allowed r link).2 <> cache r)
  /\ (exists t, lastDelay (UpdateLastDelay r t) <> lastDelay r)
  /\ (forall f userAgent domain u el resp body g,
        url.Parse robotsTxtPath = Ok u ->
        Fetch f (url.String (url.ResolveReference domain u))
        = (el, Some resp, None) ->
        http.StatusCode resp <> http.StatusNotFound ->
        robotstxt.FromResponse resp = Ok body ->
        robotstxt.FindGroup body userAgent = Some g ->
        robotsGroup r = None ->
        exists r', GetRobotsTxtGroup r f userAgent domain = Go.Ret (true, r')
                   /\ robotsGroup r' <> robotsGroup r).
Proof.
  split.
  { intros d r' rng' H. apply CrawlDelay_frame in H as ->. done. }
  split; [apply CrawlDelay_returns|].
  split.
  { intros link Hnew Heq.
    pose proof (Allowed_records r link) as Hin.
    rewrite Heq in Hin. congruence. }
  split.
  { destruct (decide (lastDelay r = squared time.Second)) as [E|E].
    - exists (2 * time.Second). simpl. rewrite E. by vm_compute.
    - exists time.Second. simpl. congruence. }
  intros f userAgent domain u el resp body g Hparse Hfetch Hne Hok Hg Hunset.
  rewrite (GetRobotsTxtGroup_cases r f userAgent domain u Hparse).
  rewrite Hfetch, Hok, Hg.
  rewrite (proj2 (Z.eqb_neq _ _) Hne).
  eexists. split; [done|]. simpl. by rewrite Hunset.
Qed.

End Statements.

End RulesProps.

(** ** The crawling rules on the fixtures *)

Module RulesExamples.

Import Fixture Rules RulesProps.


(** C1. With a fixed delay of 100 ms and a source that yields 50,
    [randDelay] returns 200, and [CrawlDelay], with no robots.txt and no
    last delay, 200 ms: more than 1.5 times the fixed delay, the upper end of
    the range the specification and the comments of the code give. *)
Theorem randDelay_beyond_range :
  randDelay 100 rng50
  = Go.Ret (200, {| rand.draws := fun _ => 50; rand.pos := 1 |})
  /\ CrawlDelay rules0 rng50
     = Go.Ret (200 * time.Millisecond, rules0,
               {| rand.draws := fun _ => 50; rand.pos := 1 |})
  /\ 3 * time.Milliseconds (fixedDelay rules0) / 2 = 150
  /\ 150 < 200.
Proof. repeat split; by vm_compute. Qed.

(** The test of the repository: with the crawl delay of 2 s of the
    robots.txt and a fixed delay of 100 ms, [CrawlDelay] is 2 s whatever the
    source yields. *)
Example CrawlDelay_robots (rng : rand.Rand) :
  exists rng',
    CrawlDelay rules_robots rng = Go.Ret (2 * time.Second, rules_robots, rng').
Proof.
  destruct (CrawlDelay_value rules_robots rng)
    as (random & rng' & Hc & _ & Hr); [by vm_compute..|].
  exists rng'. rewrite Hc. do 3 f_equal.
  change (time.Milliseconds (lastDelay rules_robots)) with 0.
  change (time.Milliseconds _) with 2000.
  assert (3 * time.Milliseconds (fixedDelay rules_robots) / 2
          <= random
          < 3 * time.Milliseconds (fixedDelay rules_robots) / 2
            + time.Milliseconds (fixedDelay rules_robots)) as H
    by (apply Hr; by vm_compute).
  change (time.Milliseconds (fixedDelay rules_robots)) with 100 in H.
  change (3 * 100 / 2) with 150 in H.
  unfold time.Millisecond, time.Second. lia.
Qed.

(** The robots.txt refuses [/a?x=1]; the link is consumed all the same,
    and refused again after other calls. *)
Lemma Allowed_consumes_witness :
  (Allowed rules_robots link_a_query).1 = false
  /\ Cache.Contains (FString base) (FString link_a_query)
                    (cache (Allowed rules_robots link_a_query).2) = true
  /\ match exec ((Allowed rules_robots link_a_query).2, rng50)
                [OpAllowed link_a; OpUpdateLastDelay (3 * time.Second);
                 OpCrawlDelay; OpCacheSet "http://other.org" "x"] with
     | Go.Ret (r2, _) => (Allowed r2 link_a_query).1 = false
     | Go.Panic _ => False
     end.
Proof.
  split; [by vm_compute|].
  destruct (Allowed_consumes rules_robots link_a_query) as [H1 H2].
  split; [exact H1|].
  destruct (exec _ _) as [[r2 rng2]|msg] eqn:E.
  - exact (proj2 (H2 _ _ _ _ E)).
  - vm_compute in E. discriminate E.
Defined.

(** C3 as the specification words it, with the path of the link: the link
    [http://example.com/a?x=1] is new and in-domain, and the robots group,
    which disallows [/a?], passes its path [/a]; yet [Allowed] answers
    false, because the group is asked about [/a?x=1]. *)
Lemma Allowed_path_counterexample :
  Cache.Contains (url.String (baseDomain rules_robots))
                 (url.String link_a_query) (cache rules_robots) = false
  /\ robots_pass_path rules_robots link_a_query
  /\ in_domain rules_robots link_a_query
  /\ (Allowed rules_robots link_a_query).1 = false.
Proof.
  split; [by vm_compute|]. split; [by vm_compute|].
  split; [left; by vm_compute | by vm_compute].
Qed.

Lemma Allowed_iff_witness :
  ((Allowed rules_robots link_a).1 = true <->
   robots_pass rules_robots link_a /\ in_domain rules_robots link_a)
  /\ (Allowed rules_robots link_sub).1 = false.
Proof.
  split.
  - apply (Allowed_iff rules_robots link_a). by vm_compute.
  - apply (Allowed_iff rules_robots link_sub); by vm_compute.
Defined.

(** C5. A response time of 1.5 s has the square 2.25 s, and
    [UpdateLastDelay] stores 2 s; a response time of 0.9 s has the square
    0.81 s, and [UpdateLastDelay] stores 0: the conversion
    [time.Duration(math.Pow(...))] drops the fraction of the seconds before
    they are scaled by [time.Second]. *)
Theorem UpdateLastDelay_truncates :
  squared_seconds (1500 * time.Millisecond) = 2250 * time.Millisecond
  /\ lastDelay (UpdateLastDelay rules0 (1500 * time.Millisecond))
     = 2 * time.Second
  /\ squared_seconds (900 * time.Millisecond) = 810 * time.Millisecond
  /\ lastDelay (UpdateLastDelay rules0 (900 * time.Millisecond)) = 0.
Proof. repeat split; by vm_compute. Qed.

Example UpdateLastDelay_whole_seconds_at_1500 :
  0 <= 1500 <= 10000
  /\ lastDelay (UpdateLastDelay rules0 (1500 * time.Millisecond))
     = (1500 * 1500 / 1000000) * time.Second
  /\ (1500 * 1500 / 1000000) * time.Second = 2 * time.Second.
Proof.
  split; [lia|]. split; [|done].
  apply (UpdateLastDelay_whole_seconds rules0 1500). lia.
Defined.

(** [http://example.com/robots.txt] has a group for every agent, and
    with the robots.txt for googlebot no group for [test-agent];
    [other.org] does not answer. *)
Lemma GetRobotsTxtGroup_outcomes_witness :
  GetRobotsTxtGroup rules0 fetcher0 "test-agent" base
  = Go.Ret (true, rules_robots)
  /\ GetRobotsTxtGroup rules0 fetcher_googlebot "test-agent" base
     = Go.Ret (true,
               {| baseDomain := base; cache := Cache.newMemoryCache;
                  robotsGroup := Some robotstxt.emptyGroup;
                  fixedDelay := 100 * time.Millisecond; lastDelay := 0 |})
  /\ GetRobotsTxtGroup rules0 fetcher0 "test-agent"
                       (mk "https" "other.org" "/" "")
     = Go.Ret (false, rules0).
Proof.
  split; [|split].
  - pose proof (GetRobotsTxtGroup_outcomes rules0 fetcher0 "test-agent" base
                  (mk "" "" "/robots.txt" "") eq_refl) as H.
    cbv zeta in H. destruct H as (_ & H & _).
    destruct (H (response 200 "200 OK" robots_body) eq_refl eq_refl)
      as (_ & _ & Hok).
    destruct (Hok [("*"%string, group ["/a?"%string] (2 * time.Second))])
      as (Hcall & _); [by vm_compute | by vm_compute |].
    exact Hcall.
  - pose proof (GetRobotsTxtGroup_outcomes rules0 fetcher_googlebot
                  "test-agent" base
                  (mk "" "" "/robots.txt" "") eq_refl) as H.
    cbv zeta in H. destruct H as (_ & H & _).
    destruct (H (response 200 "200 OK" robots_googlebot) eq_refl eq_refl)
      as (_ & _ & Hok).
    destruct (Hok [("googlebot"%string, group ["/"%string] 0)])
      as (_ & Hcall); [by vm_compute | by vm_compute |].
    apply Hcall. by vm_compute.
  - pose proof (GetRobotsTxtGroup_outcomes rules0 fetcher0 "test-agent"
                  (mk "https" "other.org" "/" "")
                  (mk "" "" "/robots.txt" "") eq_refl) as H.
    cbv zeta in H. destruct H as (H & _).
    apply (H "context deadline exceeded"%string). by vm_compute.
Defined.

(** C6 as the specification words it: the robots.txt for googlebot is
    fetched and parsed, none of its groups matches [test-agent], and
    [GetRobotsTxtGroup] returns true, with the empty group stored. *)
Lemma GetRobotsTxtGroup_counterexample :
  FFromResponse (response 200 "200 OK" robots_googlebot)
  = Ok [("googlebot"%string, group ["/"%string] 0)]
  /\ Fmatching [("googlebot"%string, group ["/"%string] 0)] "test-agent"
     = None
  /\ GetRobotsTxtGroup rules0 fetcher_googlebot "test-agent" base
     = Go.Ret (true,
               {| baseDomain := base; cache := Cache.newMemoryCache;
                  robotsGroup := Some robotstxt.emptyGroup;
                  fixedDelay := 100 * time.Millisecond; lastDelay := 0 |})
  /\ robotstxt.Test robotstxt.emptyGroup "/" = true.
Proof. repeat split; by vm_compute. Qed.

(** [CrawlDelay] on rules with a fixed delay of 100 ms. *)
Lemma CrawlDelay_read_only_witness :
  0 <= time.Milliseconds (fixedDelay rules0) <= 10000
  /\ (exists d rng', CrawlDelay rules0 rng50 = Go.Ret (d, rules0, rng'))
  /\ cache (Allowed rules0 link_a).2 <> cache rules0.
Proof.
  destruct (CrawlDelay_read_only rules0 rng50) as (_ & H2 & H3 & _).
  assert (0 <= time.Milliseconds (fixedDelay rules0) <= 10000) as Hr
    by (by vm_compute).
  split; [exact Hr|]. split; [exact (H2 Hr)|].
  apply H3. by vm_compute.
Defined.

End RulesExamples.

(** ** The link extractor *)

Module ParserProps.

Import Parser.

Lemma filter_comm {A : Type} (P Q : A -> Prop)
    `{!forall a, Decision (P a)} `{!forall a, Decision (Q a)} (l : list A) :
  filter P (filter Q l) = filter Q (filter P l).
Proof. rewrite !list_filter_filter. apply list_filter_iff. tauto. Qed.

Lemma first_occurrences_filter (P : string -> Prop)
    `{!forall s, Decision (P s)} (l : list string) :
  first_occurrences (filter P l) = filter P (first_occurrences l).
Proof.
  induction l as [|x l IH]; [done|]. simpl.
  rewrite filter_cons. destruct (decide (P x)) as [HP|HP].
  - simpl. rewrite filter_cons, decide_True by done.
    f_equal. rewrite IH. apply filter_comm.
  - rewrite filter_cons, decide_False by done. rewrite IH.
    rewrite list_filter_filter. apply list_filter_iff.
    intros y. split; [|tauto]. intros Hy. split; [done|congruence].
Qed.

Lemma first_occurrences_elem (l : list string) (x : string) :
  x ∈ first_occurrences l <-> x ∈ l.
Proof.
  induction l as [|y l IH]; [done|]. simpl.
  rewrite !elem_of_cons, list_elem_of_filter, IH.
  destruct (decide (x = y)); tauto.
Qed.

Lemma first_occurrences_NoDup (l : list string) :
  NoDup (first_occurrences l).
Proof.
  induction l as [|x l IH]; simpl; [constructor|].
  constructor; [|by apply NoDup_filter].
  rewrite list_elem_of_filter. tauto.
Qed.

Section Extractor.
Context `{U : url.API} `{G : goquery.API}.


Lemma mark_all_true (news : list url.URL) (seen : syncmap.Map) :
  all_true seen -> all_true (mark news seen).
Proof.
  revert seen. induction news as [|u news IH]; intros seen H; [done|].
  simpl. apply IH. by apply map_Forall_insert_2.
Qed.

Lemma mark_dom (news : list url.URL) (seen : syncmap.Map) :
  dom (mark news seen) = dom seen ∪ list_to_set (url.String <$> news).
Proof.
  revert seen. induction news as [|u news IH]; intros seen; simpl.
  - set_solver.
  - unfold mark in *. simpl. rewrite IH, dom_insert_L. set_solver.
Qed.

(** One element: the map decides as the set of its keys does. *)
Lemma visit_fresh (baseURL : string) (found : list url.URL)
    (seen : syncmap.Map) (element : goquery.Element) :
  all_true seen ->
  visit baseURL (found, seen) element =
  match resolveRelativeURL baseURL (goquery.Attr "href" element).1 with
  | None => (found, seen)
  | Some link =>
      if decide (url.String link ∈ dom seen) then (found, seen)
      else (found ++ [link], <[url.String link := true]> seen)
  end.
Proof.
  intros Hall. unfold visit.
  destruct (resolveRelativeURL _ _) as [link|]; [|done].
  unfold syncmap.LoadOrStore, syncmap.Store.
  destruct (seen !! url.String link) as [actual|] eqn:E.
  - rewrite (Hall _ _ E). simpl.
    rewrite decide_True; [done|]. apply elem_of_dom. by eexists.
  - simpl. rewrite decide_False by (by apply not_elem_of_dom).
    by rewrite insert_insert_eq.
Qed.

Lemma foldl_visit (baseURL : string) (selection : list goquery.Element)
    (found : list url.URL) (seen : syncmap.Map) :
  all_true seen ->
  let cands :=
    omap (fun el => resolveRelativeURL baseURL (goquery.Attr "href" el).1)
         selection in
  foldl (visit baseURL) (found, seen) selection
  = (found ++ fresh (dom seen) cands, mark (fresh (dom seen) cands) seen).
Proof.
  revert found seen.
  induction selection as [|el sel IH]; intros found seen Hall;
    cbn [foldl omap list_omap].
  - simpl. by rewrite app_nil_r.
  - rewrite visit_fresh by done.
    destruct (resolveRelativeURL _ _) as [link|]; cbn [fresh];
      [|by apply IH].
    destruct (decide (url.String link ∈ dom seen)) as [Hin|Hout].
    + by apply IH.
    + rewrite IH by (by apply map_Forall_insert_2).
      rewrite dom_insert_L, <- app_assoc. done.
Qed.

(** [fresh] against the specification's reading. *)
Lemma fresh_first_occurrences (cands : list url.URL) (emitted : gset string) :
  url.String <$> fresh emitted cands
  = first_occurrences (filter (fun s => s ∉ emitted) (url.String <$> cands)).
Proof.
  revert emitted. induction cands as [|c cs IH]; intros emitted; [done|].
  simpl. rewrite filter_cons.
  destruct (decide (url.String c ∈ emitted)) as [Hin|Hout].
  - rewrite decide_False by tauto. apply IH.
  - rewrite decide_True by done. simpl. f_equal.
    rewrite IH, <- first_occurrences_filter, list_filter_filter.
    f_equal. apply list_filter_iff. intros s. set_solver.
Qed.

Lemma fresh_sublist (cands : list url.URL) (emitted : gset string) :
  fresh emitted cands `sublist_of` cands.
Proof.
  revert emitted. induction cands as [|c cs IH]; intros emitted; [done|].
  simpl. destruct (decide _); [by apply sublist_cons | by apply sublist_skip].
Qed.

Lemma fresh_not_emitted (cands : list url.URL) (emitted : gset string)
    (s : string) :
  s ∈ url.String <$> fresh emitted cands -> s ∉ emitted.
Proof.
  rewrite fresh_first_occurrences, first_occurrences_elem,
    list_elem_of_filter. tauto.
Qed.

Lemma fresh_NoDup (cands : list url.URL) (emitted : gset string) :
  NoDup (url.String <$> fresh emitted cands).
Proof. rewrite fresh_first_occurrences. apply first_occurrences_NoDup. Qed.

(** One call of [Parse] on a parser between two calls. *)
Lemma Parse_fresh (p : GoqueryParser) (baseURL reader : string) :
  all_true (seen p) ->
  let out := fresh (dom (seen p)) (candidates p baseURL reader) in
  default [] (Parse p baseURL reader).1.1 = out
  /\ seen (Parse p baseURL reader).2 = mark out (seen p)
  /\ excludedExts (Parse p baseURL reader).2 = excludedExts p.
Proof.
  intros Hall. unfold Parse, candidates, extractLinks.
  destruct (goquery.NewDocumentFromReader reader) as [doc|e]; [|done].
  rewrite foldl_visit by done. done.
Qed.

Lemma ExcludeExtensions_seen (exts : list string) (p : GoqueryParser) :
  seen (ExcludeExtensions exts p) = seen p.
Proof. done. Qed.

(** A run keeps the seen-map all true, adds to its keys the strings it
    emits, and emits each string once and none that the map had. *)
Lemma run_invariant (calls : list call) (p : GoqueryParser) :
  all_true (seen p) ->
  all_true (seen (run_state p calls))
  /\ dom (seen (run_state p calls))
     = dom (seen p) ∪ list_to_set (url.String <$> concat (run p calls))
  /\ NoDup (url.String <$> concat (run p calls))
  /\ (forall s, s ∈ url.String <$> concat (run p calls) -> s ∉ dom (seen p)).
Proof.
  revert p. induction calls as [|[exts|baseURL reader] calls IH];
    intros p Hall; cbn [run run_state].
  - simpl. split; [done|]. split; [set_solver|].
    split; [constructor | by intros s H%elem_of_nil].
  - apply (IH (ExcludeExtensions exts p)). by rewrite ExcludeExtensions_seen.
  - destruct (Parse_fresh p baseURL reader Hall) as (Hout & Hseen & _).
    destruct (Parse p baseURL reader) as [[links err] p'] eqn:E.
    cbn [fst snd] in *. cbn [concat]. rewrite Hout.
    set (out := fresh (dom (seen p)) (candidates p baseURL reader)) in *.
    assert (all_true (seen p')) as Hall'
      by (rewrite Hseen; by apply mark_all_true).
    destruct (IH p' Hall') as (IH1 & IH2 & IH3 & IH4).
    assert (dom (seen p') = dom (seen p) ∪ list_to_set (url.String <$> out))
      as Hdom by (rewrite Hseen; apply mark_dom).
    split; [exact IH1|]. rewrite fmap_app.
    split; [rewrite IH2, Hdom; set_solver|].
    split.
    + apply NoDup_app. split; [apply fresh_NoDup|].
      split; [|exact IH3].
      intros s Hs Hs'. apply IH4 in Hs'. rewrite Hdom in Hs'. set_solver.
    + intros s [Hs|Hs]%elem_of_app.
      * by apply fresh_not_emitted in Hs.
      * apply IH4 in Hs. rewrite Hdom in Hs. set_solver.
Qed.

(** C7. Over any sequence of calls on a parser made by
    [NewGoqueryParser], no URL string occurs twice in the concatenation of
    the returned lists; and the next call of [Parse] returns links of the
    document, in document order: of the strings of the candidates that no
    earlier call returned, the first occurrence of each. *)
Theorem Parse_emits_once (calls : list call) :
  NoDup (url.String <$> concat (run NewGoqueryParser calls))
  /\ forall baseURL reader,
       let p := run_state NewGoqueryParser calls in
       let out := default [] (Parse p baseURL reader).1.1 in
       url.String <$> out
       = first_occurrences
           (filter (fun s => s ∉ url.String <$> concat (run NewGoqueryParser calls))
                   (url.String <$> candidates p baseURL reader))
       /\ out `sublist_of` candidates p baseURL reader
       /\ NoDup (url.String <$>
                   concat (run NewGoqueryParser
                               (calls ++ [CallParse baseURL reader]))).
Proof.
  assert (all_true (seen NewGoqueryParser)) as H0 by apply map_Forall_empty.
  destruct (run_invariant calls NewGoqueryParser H0) as (Hall & Hdom & Hnd & _).
  split; [exact Hnd|]. intros baseURL reader p out.
  destruct (Parse_fresh p baseURL reader Hall) as (Hout & _).
  subst out. rewrite Hout. split; [|split].
  - rewrite fresh_first_occurrences. f_equal. apply list_filter_iff.
    intros s. subst p. rewrite Hdom. simpl. set_solver.
  - apply fresh_sublist.
  - by destruct (run_invariant (calls ++ [CallParse baseURL reader])
                               NewGoqueryParser H0) as (_ & _ & ? & _).
Qed.

End Extractor.

End ParserProps.

(** Two pages through one parser: the second page repeats [/a], which is
    not returned again. *)
Module ParserExamples.

Import Fixture Parser.

Example Parse_two_pages :
  run NewGoqueryParser
      [CallParse "http://example.com" "page one";
       CallParse "http://example.com" "page two"]
  = [ [mk "https" "other.org" "/" ""; mk "http" "example.com" "/a" "";
       mk "http" "example.com" "/b" ""];
      [mk "http" "example.com" "/c" ""] ].
Proof. by vm_compute. Qed.

End ParserExamples.

(** ** The fetcher *)

Module FetcherProps.

Import Fetcher.

Section Statements.
Context `{U : url.API}.

(** A response comes only for a URL that parses. *)
Lemma Fetch_response (f : stdHttpFetcher) (target : string)
    (elapsed : time.Duration) (resp : http.Response) (err : option error) :
  Fetch f target = (elapsed, Some resp, err) ->
  err = None /\ exists parsed, url.Parse target = Ok parsed.
Proof.
  unfold Fetch, http.NewRequest.
  destruct (url.Parse target) as [parsed|e]; [|done].
  destruct (client f _) as [el [r|e]]; intros H; simplify_eq.
  split; [done | by eexists].
Qed.

Lemma parseStartURL_parsed (target : string) (parsed : url.URL) :
  url.Parse target = Ok parsed ->
  parseStartURL target
  = Go.Ret (url.Scheme parsed ++ "://" ++ url.Host parsed)%string.
Proof. intros H. unfold parseStartURL. by rewrite H. Qed.


(** C9. [FetchLinks] returns an error and a nil list when no parser is
    set, and when the response has a status of 400 or more; with a parser
    and a response of a lower status it hands the body to the parser with
    [scheme://host] of the URL as base, and returns the links of the parser
    (or, when the parser fails, its error and a nil list). Both fetchers of
    the repository do. *)
Theorem FetchLinks_outcomes (f : stdHttpFetcher) (targetURL : string) :
  (parser f = None ->
   exists e, FetchLinks f targetURL = Go.Ret (0, None, Some e)
             /\ FetchLinks_iface f targetURL = Go.Ret (0, None, Some e))
  /\ (forall p elapsed resp,
        parser f = Some p ->
        Fetch f targetURL = (elapsed, Some resp, None) ->
        (http.StatusBadRequest <= http.StatusCode resp ->
         exists e e',
           FetchLinks f targetURL = Go.Ret (elapsed, None, Some e)
           /\ FetchLinks_iface f targetURL = Go.Ret (elapsed, None, Some e'))
        /\ (http.StatusCode resp < http.StatusBadRequest ->
            exists parsed,
              url.Parse targetURL = Ok parsed
              /\ let base := (url.Scheme parsed ++ "://"
                              ++ url.Host parsed)%string in
                 let r := Parse p base (http.Body resp) in
                 FetchLinks f targetURL
                 = Go.Ret (parsed_links targetURL elapsed r)
                 /\ FetchLinks_iface f targetURL
                    = Go.Ret (parsed_links targetURL elapsed r))).
Proof.
  split.
  { intros Hp. unfold FetchLinks, FetchLinks_iface. rewrite Hp. by eexists. }
  intros p elapsed resp Hp Hfetch.
  destruct (Fetch_response _ _ _ _ _ Hfetch) as [_ [parsed Hparsed]].
  unfold FetchLinks, FetchLinks_iface.
  rewrite Hp, (parseStartURL_parsed _ _ Hparsed), Hfetch. simpl.
  split.
  - intros Hbad. rewrite (proj2 (Z.leb_le _ _) Hbad). by eexists _, _.
  - intros Hok. rewrite (proj2 (Z.leb_gt _ _) Hok).
    exists parsed. split; [done|]. simpl.
    unfold parsed_links.
    destruct (Parse p _ _) as [links [e|]]; done.
Qed.

End Statements.

(** The page at [/a] through a parser that returns one link; the page at
    [/b], which answers 404; and a fetcher without a parser. *)
Module Examples.

Import Fixture.


Lemma FetchLinks_outcomes_witness :
  (exists e, FetchLinks fetcher_no_parser "http://example.com/a"
             = Go.Ret (0, None, Some e))
  /\ (exists e, FetchLinks fetcher1 "http://example.com/b"
                = Go.Ret (30 * time.Millisecond, None, Some e))
  /\ FetchLinks fetcher1 "http://example.com/a"
     = Go.Ret (1500 * time.Millisecond,
               Some [mk "http" "example.com" "/c" ""], None).
Proof.
  split; [|split].
  - destruct (FetchLinks_outcomes fetcher_no_parser "http://example.com/a")
      as [H _].
    destruct (H eq_refl) as (e & He & _). by exists e.
  - destruct (FetchLinks_outcomes fetcher1 "http://example.com/b")
      as [_ H].
    destruct (H one_link (30 * time.Millisecond)
                (response 404 "404 Not Found" "") eq_refl eq_refl)
      as [Hbad _].
    destruct Hbad as (e & _ & He & _); [by vm_compute|]. by exists e.
  - destruct (FetchLinks_outcomes fetcher1 "http://example.com/a")
      as [_ H].
    destruct (H one_link (1500 * time.Millisecond)
                (response 200 "200 OK" "page one") eq_refl eq_refl)
      as [_ Hok].
    destruct Hok as (parsed & Hparsed & Hlinks & _); [by vm_compute|].
    exact Hlinks.
Defined.

End Examples.

End FetcherProps.

(** ** The orchestrator *)

Module CrawlerProps.

Import Crawler.

Section Statements.
Context `{U : url.API}.


Lemma spawn_parsed (hrefs rest : list string) (us : list url.URL) :
  parse_to hrefs us ->
  spawn (hrefs ++ rest)
  = ((GoCrawlPage <$> (default_scheme <$> us)) ++ (spawn rest).1,
     (spawn rest).2).
Proof.
  induction 1 as [|href u hrefs us Hu _ IH]; simpl.
  - by destruct (spawn rest).
  - rewrite Hu, IH. done.
Qed.

Lemma started_spawned (us : list url.URL) (evs : list event) :
  started ((GoCrawlPage <$> us) ++ evs) = us ++ started evs.
Proof.
  unfold started. rewrite omap_app. f_equal.
  induction us as [|u us IH]; [done|]. cbn. f_equal. exact IH.
Qed.

(** C4, as the code has it. A seed that does not parse ends the process:
    [Crawl] has started an engine for each seed before it, logs the error
    and exits with status 1; no seed after it is crawled and [Crawl] does not
    return. When every seed parses, [Crawl] starts an engine for each, waits
    for them all and returns. *)
Theorem Crawl_bad_seed (before after : list string) (bad : string)
    (e : error) (us : list url.URL) :
  parse_to before us ->
  url.Parse bad = Err e ->
  Crawl (before ++ bad :: after)
  = ((GoCrawlPage <$> (default_scheme <$> us)) ++ [Log e; OsExit 1], Exits 1)
  /\ started (Crawl (before ++ bad :: after)).1 = default_scheme <$> us
  /\ Crawl before
     = ((GoCrawlPage <$> (default_scheme <$> us))
        ++ [WaitAll; Log "Crawling done"], Returns).
Proof.
  intros Hbefore Hbad.
  assert (Crawl (before ++ bad :: after)
          = ((GoCrawlPage <$> (default_scheme <$> us)) ++ [Log e; OsExit 1],
             Exits 1)) as Hcrawl.
  { unfold Crawl. rewrite (spawn_parsed _ _ _ Hbefore). simpl.
    by rewrite Hbad. }
  split; [exact Hcrawl|]. split.
  - rewrite Hcrawl. simpl. rewrite started_spawned. simpl.
    by rewrite app_nil_r.
  - unfold Crawl. rewrite <- (app_nil_r before).
    rewrite (spawn_parsed _ _ _ Hbefore). simpl. by rewrite app_nil_r.
Qed.

End Statements.

Module Examples.

Import Fixture.

(** C4 as the specification words it: of the seeds [:] and
    [http://example.com/], the first does not parse and the second does;
    [Crawl] exits with status 1 instead of returning, and no engine was started
    for the second seed. *)
Lemma Crawl_counterexample :
  FParse ":" = Err "missing protocol scheme"
  /\ FParse "http://example.com/" = Ok (mk "http" "example.com" "/" "")
  /\ Crawl [":"; "http://example.com/"]%string
     = ([Log "missing protocol scheme"; OsExit 1], Exits 1)
  /\ started (Crawl [":"; "http://example.com/"]%string).1 = []
  /\ Exits 1 <> Returns.
Proof. repeat split; by vm_compute. Qed.

(** A seed without a scheme, then a bad seed, then a good one. *)
Lemma Crawl_bad_seed_witness :
  Crawl ["example.com"; ":"; "http://example.com/"]%string
  = ([GoCrawlPage (mk "https" "" "example.com" "");
      Log "missing protocol scheme"; OsExit 1], Exits 1)
  /\ started (Crawl ["example.com"; ":"; "http://example.com/"]%string).1
     = [mk "https" "" "example.com" ""].
Proof.
  destruct (Crawl_bad_seed (U := furl) ["example.com"%string] ["http://example.com/"%string]
              ":" "missing protocol scheme" [mk "" "" "example.com" ""])
    as (H1 & H2 & _).
  - repeat constructor.
  - reflexivity.
  - split; [exact H1 | exact H2].
Defined.

End Examples.

End CrawlerProps.

(** * Further properties of the code *)

(** ** The visited cache *)

Module CacheMore.

Import Cache CacheProps.

Lemma Set_lookup (ns k ns' : string) (c : memoryCache) :
  Set_ ns k c !! ns'
  = if decide (ns = ns')
    then Some (<[k := true]> (default ∅ (c !! ns)))
    else c !! ns'.
Proof.
  unfold Set_. destruct (decide (ns = ns')) as [->|Hne].
  - rewrite lookup_insert_eq. by destruct (c !! ns').
  - by rewrite lookup_insert_ne.
Qed.

Lemma Set_comm (ns k ns' k' : string) (c : memoryCache) :
  Set_ ns k (Set_ ns' k' c) = Set_ ns' k' (Set_ ns k c).
Proof.
  apply map_eq. intros i. rewrite !Set_lookup.
  repeat case_decide; simplify_eq; try done.
  simpl. f_equal.
  destruct (decide (k = k')) as [->|Hk]; [done|].
  by apply insert_insert_ne.
Qed.

(** The cache answers exactly for what was set: after any calls of [Set]
    on a new cache, [Contains(ns, k)] is true if and only if [Set(ns, k)]
    was one of the calls; the same key under another namespace, or another
    key under the same namespace, is not contained. *)
Theorem memoryCache_exact (calls : list (string * string)) (ns k : string) :
  Contains ns k (sets newMemoryCache calls) = true <-> (ns, k) ∈ calls.
Proof.
  rewrite Contains_sets, Contains_new. split; [|by right].
  by intros [?|?].
Qed.

(** The order of the calls of [Set] does not matter: two sequences of
    calls that are permutations of each other leave the same cache. *)
Theorem memoryCache_order (c : memoryCache)
    (calls calls' : list (string * string)) :
  calls ≡ₚ calls' -> sets c calls = sets c calls'.
Proof.
  intros Hp. revert c.
  induction Hp as [|x l l' _ IH|x y l|l l' l'' _ IH1 _ IH2]; intros c.
  - done.
  - unfold sets in *. simpl. apply IH.
  - unfold sets. simpl. by rewrite Set_comm.
  - by rewrite IH1.
Qed.

Lemma memoryCache_order_witness :
  sets newMemoryCache [("a", "x"); ("b", "y"); ("a", "z")]%string
  = sets newMemoryCache [("a", "z"); ("a", "x"); ("b", "y")]%string.
Proof.
  apply memoryCache_order.
  apply (Permutation_app_comm [("a", "x"); ("b", "y")]%string
                              [("a", "z")]%string).
Defined.

End CacheMore.

(** ** The crawling rules *)

Module RulesMore.

Import Rules RulesProps.

Lemma randDelay_span_negative (value : Z) :
  -10000 <= value <= -1 -> RulesChecks.randDelay_span_at value = true.
Proof.
  intros H.
  apply (all_from_spec RulesChecks.randDelay_span_at 10000 (-10000)); [|lia].
  vm_compute. reflexivity.
Qed.

Section Statements.
Context `{U : url.API} `{R : robotstxt.API}.

(** For a value of 1 to 10000, [randDelay] returns the value the source
    yields in [[0, value)] plus [1.5 * value] (rounded down): a number of
    [[1.5 * value, 2.5 * value)], and never one below [1.5 * value]. It takes
    one value from the source. *)
Theorem randDelay_shifted_range (value : Z) (rng : rand.Rand) :
  1 <= value <= 10000 ->
  exists d,
    randDelay value rng
    = Go.Ret (d, {| rand.draws := rand.draws rng;
                    rand.pos := S (rand.pos rng) |})
    /\ d = rand.draws rng (rand.pos rng) mod value + 3 * value / 2
    /\ 3 * value / 2 <= d < 3 * value / 2 + value.
Proof.
  intros H. rewrite (randDelay_returns value rng H).
  pose proof (Z.mod_pos_bound (rand.draws rng (rand.pos rng)) value).
  assert (0 <= 3 * value / 2 <= 15000)
    by (split; [apply Z.div_pos|apply Z.div_le_upper_bound]; lia).
  eexists. split; [done|].
  unfold Go.int64_add, Go.wrap64. rewrite Z.mod_small by lia. lia.
Qed.

(** A negative fixed delay of 1 ms to 10 s makes [randDelay] panic in
    [rand.Int63n], whose argument is then negative, and [CrawlDelay] with it. *)
Theorem randDelay_negative_panics (value : Z) (rng : rand.Rand) :
  -10000 <= value <= -1 ->
  randDelay value rng = Go.Panic "invalid argument to Int63n"
  /\ forall r,
       time.Milliseconds (fixedDelay r) = value ->
       CrawlDelay r rng = Go.Panic "invalid argument to Int63n".
Proof.
  intros H.
  assert (randDelay value rng = Go.Panic "invalid argument to Int63n") as Hp.
  { pose proof (randDelay_span_negative value H) as Hs.
    unfold RulesChecks.randDelay_span_at in Hs. apply Z.eqb_eq in Hs.
    unfold randDelay. rewrite (proj2 (Z.eqb_neq value 0)) by lia.
    rewrite Hs. unfold rand.Int63n.
    by rewrite (proj2 (Z.leb_le value 0)) by lia. }
  split; [exact Hp|]. intros r Hr. unfold CrawlDelay. by rewrite Hr, Hp.
Qed.

(** The delay [CrawlDelay] returns, for a fixed delay of up to 10 s and
    delays below [2^43] ms: a whole number of milliseconds, the greatest of
    the last delay, the crawl delay of the robots group and the random delay,
    each cut down to milliseconds; the rules are returned unchanged. *)
Theorem CrawlDelay_greatest (r : CrawlingRules) (rng : rand.Rand) :
  let fixed := time.Milliseconds (fixedDelay r) in
  let robots :=
    time.Milliseconds (match robotsGroup r with
                       | Some g => robotstxt.CrawlDelay g
                       | None => 0
                       end) in
  let last := time.Milliseconds (lastDelay r) in
  0 <= fixed <= 10000 -> 0 <= robots < 2 ^ 43 -> 0 <= last < 2 ^ 43 ->
  exists random rng',
    CrawlDelay r rng
    = Go.Ret (Z.max last (Z.max random robots) * time.Millisecond, r, rng')
    /\ (fixed = 0 -> random = 0 /\ rng' = rng)
    /\ (0 < fixed -> 3 * fixed / 2 <= random < 3 * fixed / 2 + fixed).
Proof. intros fixed robots last. apply CrawlDelay_value. Qed.

(** After [UpdateLastDelay] with a response time of a whole number of
    milliseconds up to 10 s, [CrawlDelay] returns at least the square of the
    response time cut down to whole seconds, whatever the fixed delay (up to
    10 s) and the robots group. *)
Theorem CrawlDelay_after_UpdateLastDelay (r : CrawlingRules)
    (rng : rand.Rand) (ms : Z) :
  let robots :=
    time.Milliseconds (match robotsGroup r with
                       | Some g => robotstxt.CrawlDelay g
                       | None => 0
                       end) in
  0 <= ms <= 10000 ->
  0 <= time.Milliseconds (fixedDelay r) <= 10000 ->
  0 <= robots < 2 ^ 43 ->
  exists d rng',
    CrawlDelay (UpdateLastDelay r (ms * time.Millisecond)) rng
    = Go.Ret (d, UpdateLastDelay r (ms * time.Millisecond), rng')
    /\ (ms * ms / 1000000) * time.Second <= d.
Proof.
  intros robots Hms Hf Hr.
  destruct (UpdateLastDelay_whole_seconds r ms Hms) as (Hl & _).
  assert (0 <= ms * ms / 1000000 <= 100) as Hq.
  { split; [apply Z.div_pos; nia|].
    apply Z.div_le_upper_bound; nia. }
  assert (time.Milliseconds (lastDelay (UpdateLastDelay r (ms * time.Millisecond)))
          = ms * ms / 1000000 * 1000) as Hlast.
  { rewrite Hl. unfold time.Milliseconds, Go.int64_div, Go.wrap64, time.Second.
    replace (ms * ms / 1000000 * 1000000000)
      with (ms * ms / 1000000 * 1000 * 1000000) by lia.
    rewrite Z.quot_mul by lia. rewrite Z.mod_small by lia. lia. }
  assert (2 ^ 43 = 8796093022208) as E43 by done.
  destruct (CrawlDelay_value (UpdateLastDelay r (ms * time.Millisecond)) rng)
    as (random & rng' & Hc & _); [exact Hf | exact Hr | rewrite Hlast; lia |].
  eexists _, rng'. split; [exact Hc|].
  rewrite Hlast. unfold time.Millisecond, time.Second. lia.
Qed.

(** The answer of [Allowed], without the rules it returns. *)
Lemma Allowed_answer (r : CrawlingRules) (l : url.URL) :
  (Allowed r l).1
  = if Cache.Contains (url.String (baseDomain r)) (url.String l) (cache r)
    then false
    else match robotsGroup r with
         | Some g =>
             robotstxt.Test g (url.RequestURI l) && subdomain (baseDomain r) l
         | None => subdomain (baseDomain r) l
         end.
Proof. unfold Allowed. by case_match. Qed.

(** Engines with different base domains do not disturb each other
    through the cache they share: what the rules of one engine do in
    [Allowed] leaves every answer of the rules of the other as it would have
    been. With the same base domain (the same seed given twice, say) they do:
    a link one engine has asked about is refused to the other. *)
Theorem Allowed_namespaces (r1 r2 : CrawlingRules) (l1 l2 : url.URL) :
  (url.String (baseDomain r1) <> url.String (baseDomain r2) ->
   (Allowed (Engine.over (cache (Allowed r1 l1).2) r2) l2).1
   = (Allowed (Engine.over (cache r1) r2) l2).1)
  /\ (url.String (baseDomain r1) = url.String (baseDomain r2) ->
      (Allowed (Engine.over (cache (Allowed r1 l1).2) r2) l1).1 = false).
Proof.
  split.
  - intros Hne. rewrite !Allowed_answer. simpl.
    assert (Cache.Contains (url.String (baseDomain r2)) (url.String l2)
                           (cache (Allowed r1 l1).2)
            = Cache.Contains (url.String (baseDomain r2)) (url.String l2)
                             (cache r1)) as ->; [|done].
    unfold Allowed. case_match; [done|]. simpl.
    apply CacheProps.Contains_Set_other. congruence.
  - intros Heq. apply Allowed_visited. simpl. rewrite <- Heq.
    apply Allowed_records.
Qed.

End Statements.

Module Examples.

Import Fixture Fixture2.

Lemma randDelay_shifted_range_witness :
  exists d,
    randDelay 100 rng_count
    = Go.Ret (d, {| rand.draws := Z.of_nat; rand.pos := 8 |})
    /\ d = 157.
Proof.
  destruct (randDelay_shifted_range 100 rng_count) as (d & Hd & Hv & _);
    [lia|].
  exists d. split; [exact Hd | exact Hv].
Defined.

Lemma randDelay_negative_panics_witness :
  time.Milliseconds (fixedDelay rules_negative) = -100
  /\ CrawlDelay rules_negative rng50
     = Go.Panic "invalid argument to Int63n".
Proof.
  split; [by vm_compute|].
  destruct (randDelay_negative_panics (-100) rng50) as [_ H]; [lia|].
  apply H. by vm_compute.
Defined.

Lemma CrawlDelay_greatest_witness :
  exists random rng',
    CrawlDelay rules_robots rng50
    = Go.Ret (Z.max 0 (Z.max random 2000) * time.Millisecond,
              rules_robots, rng')
    /\ 150 <= random < 250.
Proof.
  destruct (CrawlDelay_greatest rules_robots rng50)
    as (random & rng' & Hc & _ & Hr); [by vm_compute..|].
  exists random, rng'. split; [exact Hc|].
  apply Hr. by vm_compute.
Defined.

Lemma CrawlDelay_after_UpdateLastDelay_witness :
  exists d rng',
    CrawlDelay (UpdateLastDelay rules0 (2500 * time.Millisecond)) rng50
    = Go.Ret (d, UpdateLastDelay rules0 (2500 * time.Millisecond), rng')
    /\ 6 * time.Second <= d.
Proof.
  destruct (CrawlDelay_after_UpdateLastDelay rules0 rng50 2500)
    as (d & rng' & Hc & Hd); [lia | by vm_compute | by vm_compute |].
  exists d, rng'. split; [exact Hc | exact Hd].
Defined.

Lemma Allowed_namespaces_witness :
  (Allowed (Engine.over (cache (Allowed rules0 link_a).2) rules_other) link_a).1
  = (Allowed (Engine.over (cache rules0) rules_other) link_a).1
  /\ (Allowed (Engine.over (cache (Allowed rules0 link_a).2) rules0) link_a).1
     = false.
Proof.
  split.
  - destruct (Allowed_namespaces rules0 rules_other link_a link_a) as [H _].
    apply H. intros E. vm_compute in E. discriminate E.
  - destruct (Allowed_namespaces rules0 rules0 link_a link_a) as [_ H].
    by apply H.
Defined.

End Examples.

End RulesMore.

(** ** The link extractor *)

Module ParserMore.

Import Parser ParserProps.

Section Statements.
Context `{U : url.API} `{G : goquery.API}.

Lemma foldl_exclude (exts : list string) (m : gmap string bool) (e : string) :
  default false (foldl (fun m ext => <[ext := true]> m) m exts !! e)
  = default false (m !! e) || bool_decide (e ∈ exts).
Proof.
  revert m. induction exts as [|x exts IH]; intros m; cbn [foldl].
  - rewrite (bool_decide_eq_false_2 (e ∈ [])) by apply not_elem_of_nil.
    by rewrite orb_false_r.
  - rewrite IH. destruct (decide (e = x)) as [->|Hne].
    + rewrite lookup_insert_eq. cbn [default].
      rewrite (bool_decide_eq_true_2 (x ∈ x :: exts)) by apply list_elem_of_here.
      by rewrite orb_true_r.
    + rewrite lookup_insert_ne by done. f_equal.
      apply bool_decide_ext. rewrite elem_of_cons. tauto.
Qed.

(** After [ExcludeExtensions(exts...)] an extension is excluded exactly
    when it was excluded before or is one of [exts]: exclusions add up and
    are never taken back; and the links seen so far are not touched. *)
Theorem ExcludeExtensions_excluded (exts : list string) (p : GoqueryParser)
    (e : string) :
  excluded (ExcludeExtensions exts p) e
  = excluded p e || bool_decide (e ∈ exts)
  /\ seen (ExcludeExtensions exts p) = seen p.
Proof. split; [apply foldl_exclude | done]. Qed.

(** Which elements the extractor selects. An element with an [href] is
    selected when the extension of the [href] is not excluded; an element
    with [rel="canonical"] is selected when the empty extension is not
    excluded, whatever its [href]: also without one, and also when the
    extension of its [href] is excluded. No other element is selected. *)
Theorem qualifies_iff (p : GoqueryParser) (element : goquery.Element) :
  qualifies p element = true <->
  ((goquery.Attr "href" element).2 = true
   /\ excluded p (filepath.Ext (goquery.Attr "href" element).1) = false)
  \/ (goquery.Attr "rel" element = ("canonical"%string, true)
      /\ excluded p "" = false).
Proof.
  unfold qualifies.
  destruct (goquery.Attr "href" element) as [hrefLink hrefExists].
  destruct (goquery.Attr "rel" element) as [linkType linkExists]. simpl.
  rewrite orb_true_iff, !andb_true_iff, !negb_true_iff, bool_decide_eq_true.
  split.
  - intros [H|[[H1 ->] H3]]; [by left|right].
    split; [by rewrite H1 | exact H3].
  - intros [H|[[= -> ->] H2]]; [by left|right]. done.
Qed.

(** Every candidate of a document is emitted or was emitted before. *)
Lemma fresh_covers (cands : list url.URL) (emitted : gset string)
    (c : url.URL) :
  c ∈ cands ->
  url.String c ∈ emitted
  \/ url.String c ∈ url.String <$> fresh emitted cands.
Proof.
  revert emitted. induction cands as [|x cs IH]; intros emitted Hc.
  - by apply elem_of_nil in Hc.
  - simpl. apply elem_of_cons in Hc as [->|Hc].
    + destruct (decide _) as [Hin|Hout]; [by left|right].
      rewrite fmap_cons. apply list_elem_of_here.
    + destruct (decide _) as [Hin|Hout]; [by apply IH|].
      destruct (IH ({[url.String x]} ∪ emitted) Hc) as [H|H].
      * apply elem_of_union in H as [H|H]; [|by left].
        apply elem_of_singleton in H. right. rewrite fmap_cons, H.
        apply list_elem_of_here.
      * right. rewrite fmap_cons. by apply list_elem_of_further.
Qed.

Lemma fresh_nothing (cands : list url.URL) (emitted : gset string) :
  (forall c, c ∈ cands -> url.String c ∈ emitted) ->
  fresh emitted cands = [].
Proof.
  induction cands as [|x cs IH]; intros H; [done|]. simpl.
  rewrite decide_True by (apply H, list_elem_of_here).
  apply IH. intros c Hc. by apply H, list_elem_of_further.
Qed.

(** A page parsed a second time on the same parser yields no link: after
    any calls on a new parser, the second of two successive calls of [Parse]
    with the same base and the same document returns the empty list. *)
Theorem Parse_twice (calls : list call) (baseURL reader : string) :
  let p := run_state NewGoqueryParser calls in
  default [] (Parse (Parse p baseURL reader).2 baseURL reader).1.1 = [].
Proof.
  intros p.
  assert (all_true (seen NewGoqueryParser)) as H0 by apply map_Forall_empty.
  destruct (run_invariant calls NewGoqueryParser H0) as (Hall & _).
  fold p in Hall.
  destruct (Parse_fresh p baseURL reader Hall) as (_ & Hseen & Hexcl).
  set (p' := (Parse p baseURL reader).2) in *.
  assert (all_true (seen p')) as Hall'
    by (rewrite Hseen; by apply mark_all_true).
  destruct (Parse_fresh p' baseURL reader Hall') as (-> & _).
  assert (candidates p' baseURL reader = candidates p baseURL reader) as ->.
  { unfold candidates, qualifies, excluded. by rewrite Hexcl. }
  apply fresh_nothing. intros c Hc.
  rewrite Hseen, mark_dom.
  destruct (fresh_covers _ (dom (seen p)) c Hc) as [H|H].
  - set_solver.
  - apply elem_of_union. right. by apply elem_of_list_to_set.
Qed.

End Statements.

End ParserMore.

(** ** The fetcher *)

Module FetcherMore.

Import Fetcher.

Section Statements.
Context `{U : url.API} `{R : robotstxt.API}.

Lemma Fetch_cases (f : stdHttpFetcher) (target : string) :
  (exists e, url.Parse target = Err e /\ Fetch f target = (0, None, Some e))
  \/ (exists parsed elapsed,
        url.Parse target = Ok parsed
        /\ ((exists resp, Fetch f target = (elapsed, Some resp, None))
            \/ (exists e, Fetch f target = (elapsed, None, Some e)))).
Proof.
  unfold Fetch, http.NewRequest.
  destruct (url.Parse target) as [parsed|e]; [right|left; by eexists].
  destruct (client f _) as [el [r|e]]; exists parsed, el; split; try done.
  - left. by eexists.
  - right. by eexists.
Qed.

(** [Fetch] returns a response exactly when it returns no error; and for
    a URL that does not parse it returns the parse error and a zero elapsed
    time, without any request made. *)
Theorem Fetch_response_or_error (f : stdHttpFetcher) (target : string) :
  ((Fetch f target).1.2 = None <-> (Fetch f target).2 <> None)
  /\ (forall e, url.Parse target = Err e ->
                Fetch f target = (0, None, Some e)).
Proof.
  split.
  - destruct (Fetch_cases f target)
      as [(e & _ & ->)|(parsed & el & _ & [(resp & ->)|(e & ->)])];
      simpl; split; done.
  - intros e He. unfold Fetch, http.NewRequest. by rewrite He.
Qed.

(** [FetchLinks] panics exactly when a parser is set and the target does
    not parse as a URL: [parseStartURL] drops the error of [url.Parse] and
    reads the fields of the nil URL. Both fetchers of the repository do. *)
Theorem FetchLinks_panics (f : stdHttpFetcher) (targetURL : string) :
  let nil_URL := parser f <> None
                 /\ exists e, url.Parse targetURL = Err e in
  ((exists msg, FetchLinks f targetURL = Go.Panic msg) <-> nil_URL)
  /\ ((exists msg, FetchLinks_iface f targetURL = Go.Panic msg) <-> nil_URL).
Proof.
  intros nil_URL. subst nil_URL.
  unfold FetchLinks, FetchLinks_iface, parseStartURL.
  destruct (parser f) as [p|]; cycle 1.
  { split; (split; [intros [msg H]; discriminate H
                   | intros [H _]; by destruct H]). }
  destruct (Fetch_cases f targetURL)
    as [(e & He & ->)|(parsed & el & He & [(resp & ->)|(e & ->)])];
    rewrite He; simpl.
  - split; (split; [intros _; split; [done | by eexists]
                   | intros _; by eexists]).
  - split; (split; [|intros [_ [e H]]; discriminate H]).
    all: intros [msg H]; exfalso; revert H.
    all: destruct (_ <=? _); [done|].
    all: by destruct (Parse p _ _) as [links [e|]].
  - split; (split; [intros [msg H]; discriminate H
                   | intros [_ [e' H]]; discriminate H]).
Qed.

(** The two fetchers of the repository answer alike: both panic or both
    return, with the same elapsed time and the same links, and an error from
    the one exactly when from the other (the text of the error differs for a
    status of 400 or more). Links are never returned together with an
    error. *)
Theorem FetchLinks_revisions (f : stdHttpFetcher) (targetURL : string) :
  match FetchLinks f targetURL, FetchLinks_iface f targetURL with
  | Go.Ret (elapsed, links, err), Go.Ret (elapsed', links', err') =>
      elapsed = elapsed' /\ links = links'
      /\ (err = None <-> err' = None)
      /\ (err <> None -> links = None)
  | Go.Panic msg, Go.Panic msg' => msg = msg'
  | _, _ => False
  end.
Proof.
  unfold FetchLinks, FetchLinks_iface.
  destruct (parser f) as [p|]; [|done].
  destruct (parseStartURL targetURL) as [baseDomain|msg]; [|done]. simpl.
  destruct (Fetch f targetURL) as [[elapsed [resp|]] [e|]]; try done.
  simpl. destruct (_ <=? _); [done|].
  by destruct (Parse p _ _) as [links [e|]].
Qed.

(** With the fetcher of the repository behind the [Fetcher] interface,
    [GetRobotsTxtGroup] never reads the status of a nil response: when
    [/robots.txt] parses as a URL reference, the call returns. *)
Theorem GetRobotsTxtGroup_returns (r : Rules.CrawlingRules)
    (f : stdHttpFetcher) (userAgent : string) (domain u : url.URL) :
  url.Parse Rules.robotsTxtPath = Ok u ->
  exists found r',
    Rules.GetRobotsTxtGroup r {| Rules.Fetch := Fetch f |} userAgent domain
    = Go.Ret (found, r').
Proof.
  intros Hu. unfold Rules.GetRobotsTxtGroup. rewrite Hu. simpl.
  destruct (Fetch_cases f (url.String (url.ResolveReference domain u)))
    as [(e & _ & ->)|(parsed & el & _ & [(resp & ->)|(e & ->)])];
    simpl; try by eexists _, _.
  repeat case_match; by eexists _, _.
Qed.

End Statements.

Module Examples.

Import Fixture Fixture2.

Lemma GetRobotsTxtGroup_returns_witness :
  exists found r',
    Rules.GetRobotsTxtGroup rules0 {| Rules.Fetch := Fetch fetcher1 |}
                            "test-agent" base
    = Go.Ret (found, r').
Proof.
  apply (GetRobotsTxtGroup_returns rules0 fetcher1 "test-agent" base
           (mk "" "" "/robots.txt" "")).
  by vm_compute.
Defined.

End Examples.

End FetcherMore.

(** ** The engine *)

Module EngineProps.

Import Engine.

Lemma wrap32_add_l (a b : Z) : Go.wrap32 (Go.wrap32 a + b) = Go.wrap32 (a + b).
Proof.
  unfold Go.wrap32.
  replace ((a + 2147483648) mod 4294967296 - 2147483648 + b + 2147483648)
    with ((a + 2147483648) mod 4294967296 + b) by lia.
  rewrite Zplus_mod_idemp_l. do 2 f_equal. lia.
Qed.

Lemma wrap32_add_r (a b : Z) : Go.wrap32 (a + Go.wrap32 b) = Go.wrap32 (a + b).
Proof. rewrite (Z.add_comm a), wrap32_add_l. f_equal. lia. Qed.

Lemma wrap32_small (z : Z) :
  -2147483648 <= z <= Go.max_int32 -> Go.wrap32 z = z.
Proof.
  unfold Go.wrap32, Go.max_int32. intros H. rewrite Z.mod_small by lia. lia.
Qed.

(** The steps, one by one: of the main loop (receive, range, timer, cancel,
    wait) and of a worker, by its phase. *)
Ltac at_select H :=
  unfold loop_step in H;
  destruct (main _) eqn:Hmain; try discriminate H;
  destruct (links _) as [|l rest] eqn:Hlinks; try discriminate H;
  destruct (stop (vars _)) eqn:Hstop; try discriminate H.

Ltac at_range H :=
  unfold loop_step in H;
  destruct (main _) eqn:Hmain; try discriminate H;
  destruct (links _) as [|l rest] eqn:Hlinks;
  try (destruct (stop (vars _)); discriminate H);
  injection H as <-.

Ltac worker_cases H w Hw Hpc :=
  unfold work, fetched in H;
  match type of H with
  | context [workers ?st !! ?i] =>
      destruct (workers st !! i) as [w|] eqn:Hw; simpl in H;
      [|discriminate H]
  end;
  destruct (pc w) eqn:Hpc; try discriminate H;
  repeat case_match; try discriminate H;
  injection H as <-;
  try match goal with
      | E : Rules.CrawlDelay _ _ = Go.Ret (_, ?c, _) |- _ =>
          pose proof (RulesProps.CrawlDelay_frame _ _ _ _ _ E); subst c
      end.

Ltac step_cases H w Hw Hpc :=
  match type of H with
  | step _ _ _ _ ?a = _ =>
      destruct a; simpl in H;
      [ at_select H;
        destruct (linksCh _) as [|batch buffer] eqn:Hch; try discriminate H;
        injection H as <-
      | at_range H
      | at_select H; destruct (linkCounter _ <=? 0) eqn:Hle; injection H as <-
      | at_select H; injection H as <-
      | at_select H; destruct (forallb gone _) eqn:Hgone;
        try discriminate H; injection H as <-
      | worker_cases H w Hw Hpc
      | worker_cases H w Hw Hpc ]
  end.

Section Statements.
Context `{U : url.API} `{R : robotstxt.API}.
Variable Marshal : ParsedResult -> string.
Variable settings : CrawlerSettings.
Variable queue : Producer.

Lemma total_app (f : worker -> Z) (ws ws' : list worker) :
  total f (ws ++ ws') = total f ws + total f ws'.
Proof. induction ws as [|w ws IH]; simpl; [done|]. rewrite IH. lia. Qed.

Lemma total_alter (f : worker -> Z) (g : worker -> worker) (i : nat)
    (ws : list worker) (w : worker) :
  ws !! i = Some w ->
  total f (alter g i ws) = total f ws - f w + f (g w).
Proof.
  revert i. induction ws as [|w0 ws IH]; intros [|i] H; simplify_eq/=.
  - lia.
  - rewrite (IH i H). lia.
Qed.

Lemma total_le (f g : worker -> Z) (ws : list worker) :
  (forall w, f w <= g w) -> total f ws <= total g ws.
Proof.
  intros H. induction ws as [|w ws IH]; simpl; [done|].
  specialize (H w). lia.
Qed.

Lemma total_nonneg (f : worker -> Z) (ws : list worker) :
  (forall w, 0 <= f w) -> 0 <= total f ws.
Proof.
  intros Hf. induction ws as [|w ws IH]; simpl; [done|].
  specialize (Hf w). lia.
Qed.

Lemma total_zero (f : worker -> Z) (ws : list worker) :
  (forall w, 0 <= f w) -> total f ws = 0 -> Forall (fun w => f w = 0) ws.
Proof.
  intros Hf. induction ws as [|w ws IH]; simpl; intros H; [done|].
  pose proof (total_nonneg f ws Hf). pose proof (Hf w).
  constructor; [lia|]. apply IH. lia.
Qed.

Lemma fmap_goes {A : Type} (f : worker -> A) (p : phase) (i : nat)
    (ws : list worker) :
  (forall w, f (goes p w) = f w) ->
  f <$> alter (goes p) i ws = f <$> ws.
Proof.
  intros Hf. revert i. induction ws as [|w ws IH]; intros [|i]; simpl;
    try done.
  - by rewrite Hf.
  - f_equal. apply IH.
Qed.

(** An invariant of the steps holds after a schedule. *)
Lemma run_keeps (P : engine -> Prop) :
  (forall s a s', P s -> step Marshal settings queue s a = Some s' -> P s') ->
  forall schedule s s',
    P s -> run Marshal settings queue s schedule = Some s' -> P s'.
Proof.
  intros Hstep. induction schedule as [|a rest IH]; intros s s' Hs; simpl.
  - by intros [= <-].
  - destruct (step Marshal settings queue s a) as [s1|] eqn:E; [|done].
    simpl. apply IH. by apply (Hstep s a).
Qed.

(** The loop body, by the answer of [Allowed]. *)
Lemma each_link_allowed (M : Z) (st : loop) (l : url.URL) :
  (Rules.Allowed (crawlingRules st) l).1 = true ->
  crawlingRules (each_link M st l) = (Rules.Allowed (crawlingRules st) l).2
  /\ linkCounter (each_link M st l) = linkCounter st
  /\ workers (each_link M st l)
     = workers st ++ [{| link := l; stopSentinel := stop st; pc := Started |}]
  /\ (stop (each_link M st l), depth (each_link M st l))
     = if (M =? 0) || negb (stop st)
       then ((0 <? M) && (M <=? Go.int64_add (depth st) 1),
             Go.int64_add (depth st) 1)
       else (stop st, depth st).
Proof.
  unfold each_link. destruct (Rules.Allowed _ _) as [a r]. simpl.
  intros ->. simpl. by destruct ((M =? 0) || negb (stop st)).
Qed.

Lemma each_link_refused (M : Z) (st : loop) (l : url.URL) :
  (Rules.Allowed (crawlingRules st) l).1 = false ->
  each_link M st l
  = {| crawlingRules := (Rules.Allowed (crawlingRules st) l).2;
       stop := stop st; depth := depth st;
       linkCounter := Go.int32_add (linkCounter st) (-1);
       workers := workers st |}.
Proof.
  unfold each_link. destruct (Rules.Allowed _ _) as [a r]. simpl.
  by intros ->.
Qed.

Lemma outstanding_moved (s : engine) (i : nat) (p : phase) (w : worker)
    (rules : Rules.CrawlingRules) (c : Z) (ch : list (list url.URL))
    (rng : rand.Rand) (out : list string) :
  workers (vars s) !! i = Some w ->
  outstanding (moved s i p rules c ch rng out)
  = Z.of_nat (length (concat ch)) + Z.of_nat (length (links s))
    + total weight (workers (vars s)) - weight w + weight (goes p w).
Proof.
  intros Hw. unfold outstanding, moved. simpl.
  rewrite (total_alter _ _ _ _ _ Hw). lia.
Qed.

Lemma step_counter (s s' : engine) (a : action) :
  linkCounter (vars s) = Go.wrap32 (outstanding s) ->
  step Marshal settings queue s a = Some s' ->
  linkCounter (vars s') = Go.wrap32 (outstanding s').
Proof.
  intros Hc H. step_cases H w Hw Hpc.
  1-6: unfold outstanding in *; rewrite ?Hlinks, ?Hch in Hc; simpl in *.
  1, 3-6: rewrite Hc; f_equal; rewrite ?length_app; lia.
  { destruct (Rules.Allowed (crawlingRules (vars s)) l).1 eqn:Ha.
    - destruct (each_link_allowed (MaxDepth settings) (vars s) l Ha)
        as (_ & -> & -> & _).
      rewrite total_app, Hc. simpl. f_equal. unfold weight. simpl. lia.
    - rewrite (each_link_refused _ _ _ Ha). simpl.
      unfold Go.int32_add. rewrite Hc, wrap32_add_l. f_equal. lia. }
  all: rewrite (outstanding_moved _ _ _ _ _ _ _ _ _ Hw); simpl.
  all: unfold outstanding in Hc; rewrite Hc.
  all: generalize (total weight (workers (vars s))); intros T.
  all: unfold weight, goes, Go.int32_add; simpl; rewrite Hpc.
  all: rewrite ?wrap32_add_r, ?wrap32_add_l; f_equal.
  all: rewrite ?concat_app, ?length_app; simpl; rewrite ?app_nil_r; lia.
Qed.

(** Batches are never empty, and a worker with a batch in hand was
    started before [stop] was set. *)
Lemma publishes_batch (w : worker) (foundLinks : option (list url.URL))
    (err : option error) (batch : list url.URL) :
  publishes w foundLinks err = Some batch ->
  batch <> [] /\ stopSentinel w = false /\ err = None
  /\ foundLinks = Some batch.
Proof.
  unfold publishes. intros H. repeat case_match; by simplify_eq.
Qed.

Lemma step_batches (s s' : engine) (a : action) :
  Forall (fun b => b <> []) (linksCh s)
  /\ Forall (fun w => match pc w with
                      | Found batch | Counted batch | Enqueued batch =>
                          batch <> [] /\ stopSentinel w = false
                      | _ => True
                      end) (workers (vars s)) ->
  step Marshal settings queue s a = Some s' ->
  Forall (fun b => b <> []) (linksCh s')
  /\ Forall (fun w => match pc w with
                      | Found batch | Counted batch | Enqueued batch =>
                          batch <> [] /\ stopSentinel w = false
                      | _ => True
                      end) (workers (vars s')).
Proof.
  intros [Hch' Hws] H. step_cases H w Hw Hpc.
  1-6: rewrite ?Hch in Hch'; simpl.
  1: { apply Forall_cons in Hch' as [_ Hch']. done. }
  1: { split; [done|].
       destruct (Rules.Allowed (crawlingRules (vars s)) l).1 eqn:Ha.
       - destruct (each_link_allowed (MaxDepth settings) (vars s) l Ha)
           as (_ & _ & -> & _).
         apply Forall_app. split; [done|]. by constructor.
       - by rewrite (each_link_refused _ _ _ Ha). }
  1-4: done.
  all: pose proof (Forall_lookup_1 _ _ _ _ Hws Hw) as Pw; cbv beta in Pw;
       rewrite Hpc in Pw.
  all: simpl; split;
    [ try done
    | apply Forall_alter; [done|];
      intros x Hx _; rewrite Hw in Hx; injection Hx as <-; try done ].
  - apply Forall_app. split; [done|]. constructor; [apply Pw | done].
  - simpl. match goal with E : publishes _ _ _ = Some _ |- _ =>
      apply publishes_batch in E as (? & ? & _) end. done.
Qed.

(** The workers started: their links differ as strings, and each was let
    through by [Allowed] on the rules the engine began with. *)
Lemma subdomain_in_domain (r : Rules.CrawlingRules) (l : url.URL) :
  Rules.subdomain (Rules.baseDomain r) l = true -> Rules.in_domain r l.
Proof.
  unfold Rules.subdomain, Rules.in_domain.
  rewrite orb_true_iff, !bool_decide_eq_true. tauto.
Qed.

Lemma step_workers (rules0 : Rules.CrawlingRules) (s s' : engine)
    (a : action) :
  let ns := url.String (Rules.baseDomain rules0) in
  let sound s :=
    Rules.baseDomain (crawlingRules (vars s)) = Rules.baseDomain rules0
    /\ Rules.robotsGroup (crawlingRules (vars s)) = Rules.robotsGroup rules0
    /\ (forall k, Cache.Contains ns k (Rules.cache rules0) = true ->
                  Cache.Contains ns k (Rules.cache (crawlingRules (vars s)))
                  = true)
    /\ NoDup ((fun w => url.String (link w)) <$> workers (vars s))
    /\ Forall (fun w =>
                 Rules.in_domain rules0 (link w)
                 /\ Rules.robots_pass rules0 (link w)
                 /\ Cache.Contains ns (url.String (link w))
                                   (Rules.cache rules0) = false
                 /\ Cache.Contains ns (url.String (link w))
                      (Rules.cache (crawlingRules (vars s))) = true)
              (workers (vars s)) in
  sound s -> step Marshal settings queue s a = Some s' -> sound s'.
Proof.
  intros ns sound (Hb & Hg & Hc & Hn & Hws) H. subst sound.
  step_cases H w Hw Hpc.
  1, 3-6: done.
  2-10: simpl; rewrite (fmap_goes (fun w => url.String (link w))) by done;
       repeat split; try done;
       apply Forall_alter; [done|];
       intros x Hx Px; exact Px.
  cbv beta. simpl.
  set (r := crawlingRules (vars s)) in *.
  destruct (RulesProps.Allowed_frame r l) as (Hb' & Hg' & _).
  assert (forall k, Cache.Contains ns k (Rules.cache rules0) = true ->
            Cache.Contains ns k (Rules.cache (Rules.Allowed r l).2) = true)
    as Hc'.
  { intros k Hk. apply RulesProps.Allowed_cache_mono. by apply Hc. }
  assert (Forall (fun w =>
                 Rules.in_domain rules0 (link w)
                 /\ Rules.robots_pass rules0 (link w)
                 /\ Cache.Contains ns (url.String (link w))
                                   (Rules.cache rules0) = false
                 /\ Cache.Contains ns (url.String (link w))
                      (Rules.cache (Rules.Allowed r l).2) = true)
              (workers (vars s))) as Hws'.
  { eapply Forall_impl; [exact Hws|]. intros w (? & ? & ? & ?).
    repeat split; try done. by apply RulesProps.Allowed_cache_mono. }
  destruct (Rules.Allowed r l).1 eqn:Ha.
  - destruct (each_link_allowed (MaxDepth settings) (vars s) l Ha)
      as (-> & _ & -> & _). fold r.
    rewrite Hb', Hg'. repeat split; try done.
    all: rewrite RulesMore.Allowed_answer in Ha.
    all: destruct (Cache.Contains (url.String (Rules.baseDomain r))
                     (url.String l) (Rules.cache r)) eqn:Hnew; [done|].
    all: rewrite Hb in Hnew; fold ns in Hnew.
    + rewrite fmap_app. apply NoDup_app. split; [done|]. split.
      * intros k Hk Hk'. apply list_elem_of_singleton in Hk'. subst k.
        apply list_elem_of_fmap in Hk as (w & Hk & Hin).
        apply (proj1 (Forall_forall _ _) Hws) in Hin as (_ & _ & _ & Hin).
        simpl in Hk. rewrite <- Hk in Hin. congruence.
      * apply NoDup_singleton.
    + apply Forall_app. split; [done|]. constructor; [|done]. simpl.
      repeat split.
      * apply subdomain_in_domain. rewrite <- Hb.
        destruct (Rules.robotsGroup r); [|done].
        by apply andb_true_iff in Ha as [_ Ha].
      * unfold Rules.robots_pass. rewrite <- Hg.
        destruct (Rules.robotsGroup r); [|done].
        by apply andb_true_iff in Ha as [Ha _].
      * destruct (Cache.Contains ns (url.String l) (Rules.cache rules0))
          eqn:E; [|done].
        apply Hc in E. congruence.
      * unfold ns. rewrite <- Hb. apply RulesProps.Allowed_records.
  - rewrite (each_link_refused _ _ _ Ha). simpl. fold r.
    rewrite Hb', Hg'. done.
Qed.

Lemma counts_bounds (w : worker) : 0 <= late w <= counts w /\ counts w <= 1.
Proof. unfold late, counts. repeat case_match; lia. Qed.

(** With a depth limit: [depth] counts the workers started before [stop]
    was set, and what has been produced comes from them. *)
Lemma step_depth (s s' : engine) (a : action) :
  let bounded s :=
    depth (vars s) = total counts (workers (vars s))
    /\ (stop (vars s) = false -> depth (vars s) < MaxDepth settings)
    /\ depth (vars s) <= MaxDepth settings
    /\ Z.of_nat (length (produced s)) <= total late (workers (vars s)) in
  0 < MaxDepth settings <= Go.max_int64 ->
  Forall (fun w => match pc w with
                   | Found batch | Counted batch | Enqueued batch =>
                       batch <> [] /\ stopSentinel w = false
                   | _ => True
                   end) (workers (vars s)) ->
  bounded s -> step Marshal settings queue s a = Some s' -> bounded s'.
Proof.
  intros bounded HM Hws (Hd & Hs & Hle' & Hp) H. subst bounded.
  assert (0 <= depth (vars s)) as H0.
  { rewrite Hd. apply total_nonneg. intros w. pose proof (counts_bounds w).
    lia. }
  step_cases H w Hw Hpc.
  1, 3-6: simpl; rewrite ?Hstop in *; repeat split; try done.
  2-10: pose proof (Forall_lookup_1 _ _ _ _ Hws Hw) as Pw; cbv beta in Pw;
        rewrite Hpc in Pw;
        simpl; rewrite !(total_alter _ _ _ _ _ Hw), ?length_app;
        revert Hd Hp H0 Hs Hle';
        generalize (total counts (workers (vars s)))
                   (total late (workers (vars s)));
        intros Tc Tl Hd Hp H0 Hs Hle';
        unfold late, counts, goes; simpl; rewrite Hpc;
        destruct (stopSentinel w) eqn:Hsent;
        repeat split; try done; try lia;
        destruct Pw as [_ Pw]; discriminate Pw.
  simpl. destruct (Rules.Allowed (crawlingRules (vars s)) l).1 eqn:Ha.
  - destruct (each_link_allowed (MaxDepth settings) (vars s) l Ha)
      as (_ & _ & -> & Hsd).
    rewrite (proj2 (Z.eqb_neq _ 0)) in Hsd by lia. simpl in Hsd.
    rewrite !total_app. unfold late at 2, counts at 2. simpl.
    destruct (stop (vars s)) eqn:Hstop; simpl in Hsd;
      injection Hsd as -> ->; [repeat split; try done; lia|].
    specialize (Hs eq_refl).
    assert (Go.int64_add (depth (vars s)) 1 = depth (vars s) + 1) as ->.
    { unfold Go.int64_add, Go.wrap64, Go.max_int64 in *.
      rewrite Z.mod_small by lia. lia. }
    split; [lia|]. split; [|lia].
    rewrite andb_false_iff, Z.ltb_ge, Z.leb_gt. lia.
  - rewrite (each_link_refused _ _ _ Ha). simpl. done.
Qed.

(** Without a depth limit [stop] is set by the timer alone, and no worker
    is started after it. *)
Lemma step_no_limit (s s' : engine) (a : action) :
  let free s :=
    (stop (vars s) = true -> links s = [])
    /\ Forall (fun w => stopSentinel w = false) (workers (vars s)) in
  MaxDepth settings <= 0 ->
  free s -> step Marshal settings queue s a = Some s' -> free s'.
Proof.
  intros free HM (Hs & Hws) H. subst free.
  step_cases H w Hw Hpc.
  1, 3-6: simpl; rewrite ?Hstop; split; done.
  2-10: simpl; split; [done|]; apply Forall_alter; [done|];
        intros x Hx Px; exact Px.
  simpl. assert (stop (vars s) = false) as Hstop.
  { destruct (stop (vars s)); [|done]. by specialize (Hs eq_refl). }
  destruct (Rules.Allowed (crawlingRules (vars s)) l).1 eqn:Ha.
  - destruct (each_link_allowed (MaxDepth settings) (vars s) l Ha)
      as (_ & _ & -> & Hsd).
    rewrite Hstop, orb_true_r in Hsd.
    rewrite (proj2 (Z.ltb_ge 0 _)) in Hsd by lia. simpl in Hsd.
    injection Hsd as -> _. split; [done|].
    apply Forall_app. split; [done|]. constructor; [|done]. by simpl.
  - rewrite (each_link_refused _ _ _ Ha). simpl. split; [|done].
    by rewrite Hstop.
Qed.

Lemma weight_bounds (w : worker) :
  0 <= weight w /\ (weight w = 0 -> pc w = Gone).
Proof. unfold weight. destruct (pc w); split; (done || lia). Qed.

Lemma run_batches (rules : Rules.CrawlingRules) (rng : rand.Rand)
    (rootURL : url.URL) (schedule : list action) (s : engine) :
  run Marshal settings queue (boot rules rng rootURL) schedule = Some s ->
  Forall (fun b => b <> []) (linksCh s)
  /\ Forall (fun w => match pc w with
                      | Found batch | Counted batch | Enqueued batch =>
                          batch <> [] /\ stopSentinel w = false
                      | _ => True
                      end) (workers (vars s)).
Proof.
  apply (run_keeps
           (fun s =>
              Forall (fun b => b <> []) (linksCh s)
              /\ Forall (fun w => match pc w with
                                  | Found batch | Counted batch
                                  | Enqueued batch =>
                                      batch <> [] /\ stopSentinel w = false
                                  | _ => True
                                  end) (workers (vars s)))).
  - intros s0 a s1. apply step_batches.
  - split; [|by constructor]. by repeat constructor.
Qed.

Lemma run_counter (rules : Rules.CrawlingRules) (rng : rand.Rand)
    (rootURL : url.URL) (schedule : list action) (s : engine) :
  run Marshal settings queue (boot rules rng rootURL) schedule = Some s ->
  linkCounter (vars s) = Go.wrap32 (outstanding s).
Proof.
  apply (run_keeps
           (fun s => linkCounter (vars s) = Go.wrap32 (outstanding s))).
  - intros s0 a s1. apply step_counter.
  - done.
Qed.

(** [linkCounter] counts the links the engine has not done with: after
    any schedule it is the number of links in the channel and in the batch
    ranged over, plus one for every worker that is not gone, plus the links
    a worker has added to the counter and not yet sent: as an int32, and
    exactly that number, which is never negative, as long as it fits. *)
Theorem linkCounter_outstanding (rules : Rules.CrawlingRules)
    (rng : rand.Rand) (rootURL : url.URL) (schedule : list action)
    (s : engine) :
  run Marshal settings queue (boot rules rng rootURL) schedule = Some s ->
  linkCounter (vars s) = Go.wrap32 (outstanding s)
  /\ 0 <= outstanding s
  /\ (outstanding s <= Go.max_int32 -> linkCounter (vars s) = outstanding s).
Proof.
  intros Hrun. pose proof (run_counter _ _ _ _ _ Hrun) as Hc.
  pose proof (total_nonneg weight (workers (vars s))
                (fun w => proj1 (weight_bounds w))) as Hw.
  assert (0 <= outstanding s) as H0 by (unfold outstanding; lia).
  repeat split; try done.
  intros Hmax. rewrite Hc. apply wrap32_small. lia.
Qed.

(** The timer ends the loop of an idle engine only: when the timer sets
    [stop] (and fewer than [2^31] links are outstanding), the channel is
    empty, no batch is being ranged over and every worker is gone, so
    that [fetchWg.Wait()] returns at once. *)
Theorem Timer_stops_idle (rules : Rules.CrawlingRules) (rng : rand.Rand)
    (rootURL : url.URL) (schedule : list action) (s s' : engine) :
  run Marshal settings queue (boot rules rng rootURL) schedule = Some s ->
  outstanding s <= Go.max_int32 ->
  step Marshal settings queue s Timer = Some s' ->
  stop (vars s') = true ->
  links s = [] /\ linksCh s = []
  /\ Forall (fun w => pc w = Gone) (workers (vars s))
  /\ exists s'', step Marshal settings queue s' Wait = Some s''
                 /\ main s'' = Returned.
Proof.
  intros Hrun Hmax H Hstop'.
  pose proof (run_counter _ _ _ _ _ Hrun) as Hc.
  destruct (run_batches _ _ _ _ _ Hrun) as [Hch' _].
  pose proof (total_nonneg weight (workers (vars s))
                (fun w => proj1 (weight_bounds w))) as Hw.
  assert (0 <= outstanding s) as H0 by (unfold outstanding; lia).
  rewrite wrap32_small in Hc by (unfold Go.max_int32 in *; lia).
  simpl in H. at_select H.
  destruct (linkCounter (vars s) <=? 0) eqn:Hle;
    injection H as <-; simpl in Hstop'; [|discriminate Hstop'].
  apply Z.leb_le in Hle.
  assert (outstanding s = 0) as Hout by lia.
  unfold outstanding in Hout. rewrite Hlinks in Hout. simpl in Hout.
  assert (linksCh s = []) as Hempty.
  { destruct (linksCh s) as [|[|l0 ls] ch]; [done| |].
    - by apply Forall_cons in Hch' as [Hch' _].
    - simpl in Hout. lia. }
  assert (Forall (fun w => pc w = Gone) (workers (vars s))) as Hgone.
  { eapply Forall_impl.
    - apply (total_zero weight); [apply weight_bounds | lia].
    - intros w. apply weight_bounds. }
  repeat split; try done.
  unfold step, loop_step. simpl.
  assert (forallb gone (workers (vars s)) = true) as ->.
  { clear -Hgone. induction Hgone as [|w ws Hw _ IH]; [done|].
    simpl. unfold gone at 1. by rewrite Hw. }
  by eexists.
Qed.

(** No page is fetched twice, and none that [Allowed] would refuse:
    after any schedule the links of the workers started differ as strings,
    and each of them is in-domain, passes the robots group, was not in the
    cache when the engine began and is in the cache now. *)
Theorem workers_allowed_once (rules : Rules.CrawlingRules) (rng : rand.Rand)
    (rootURL : url.URL) (schedule : list action) (s : engine) :
  run Marshal settings queue (boot rules rng rootURL) schedule = Some s ->
  let ns := url.String (Rules.baseDomain rules) in
  NoDup ((fun w => url.String (link w)) <$> workers (vars s))
  /\ Forall (fun w =>
               Rules.in_domain rules (link w)
               /\ Rules.robots_pass rules (link w)
               /\ Cache.Contains ns (url.String (link w))
                                 (Rules.cache rules) = false
               /\ Cache.Contains ns (url.String (link w))
                    (Rules.cache (crawlingRules (vars s))) = true)
            (workers (vars s)).
Proof.
  intros Hrun ns.
  eapply (run_keeps _ (fun s0 a s1 => step_workers rules s0 s1 a)) in Hrun.
  - destruct Hrun as (_ & _ & _ & Hn & Hws). split; [exact Hn | exact Hws].
  - simpl. repeat split; try done; constructor.
Qed.

(** With a depth limit, [depth] is the number of workers started before
    [stop] was set, it never exceeds the limit, and no more payloads than
    the limit allows are handed to the queue. *)
Theorem MaxDepth_bounds (rules : Rules.CrawlingRules) (rng : rand.Rand)
    (rootURL : url.URL) (schedule : list action) (s : engine) :
  0 < MaxDepth settings <= Go.max_int64 ->
  run Marshal settings queue (boot rules rng rootURL) schedule = Some s ->
  depth (vars s) = total counts (workers (vars s))
  /\ depth (vars s) <= MaxDepth settings
  /\ Z.of_nat (length (produced s)) <= MaxDepth settings.
Proof.
  intros HM Hrun.
  apply (run_keeps
           (fun s =>
              (Forall (fun b => b <> []) (linksCh s)
               /\ Forall (fun w => match pc w with
                                   | Found batch | Counted batch
                                   | Enqueued batch =>
                                       batch <> [] /\ stopSentinel w = false
                                   | _ => True
                                   end) (workers (vars s)))
              /\ (depth (vars s) = total counts (workers (vars s))
                  /\ (stop (vars s) = false ->
                      depth (vars s) < MaxDepth settings)
                  /\ depth (vars s) <= MaxDepth settings
                  /\ Z.of_nat (length (produced s))
                     <= total late (workers (vars s))))) in Hrun.
  - destruct Hrun as (_ & Hd & _ & Hle & Hp). repeat split; try done.
    pose proof (total_le late counts (workers (vars s))
                  (fun w => proj2 (proj1 (counts_bounds w)))).
    lia.
  - intros s0 a s1 [Hb Hd] Hstep. split.
    + by apply (step_batches s0 s1 a).
    + apply (step_depth s0 s1 a HM (proj2 Hb) Hd Hstep).
  - simpl. repeat split; try done; try lia; by repeat constructor.
Qed.

(** Without a depth limit every worker is started before [stop] is set,
    so that none drops the links it finds. *)
Theorem no_MaxDepth (rules : Rules.CrawlingRules) (rng : rand.Rand)
    (rootURL : url.URL) (schedule : list action) (s : engine) :
  MaxDepth settings <= 0 ->
  run Marshal settings queue (boot rules rng rootURL) schedule = Some s ->
  Forall (fun w =>
            stopSentinel w = false
            /\ forall l0 ls,
                 publishes w (Some (l0 :: ls)) None = Some (l0 :: ls))
         (workers (vars s)).
Proof.
  intros HM Hrun.
  apply (run_keeps _ (fun s0 a s1 => step_no_limit s0 s1 a HM)) in Hrun.
  - destruct Hrun as [_ Hws]. eapply Forall_impl; [exact Hws|].
    intros w Hw. split; [exact Hw|]. intros l0 ls.
    unfold publishes. by rewrite Hw.
  - simpl. split; [done | constructor].
Qed.

(** A worker on its own. It leaves the rules with [lastDelay] updated
    from the response time, whatever the fetch gave. It sends a batch only
    if it was started before [stop] was set, and then the batch is what
    [FetchLinks] returned without an error, is not empty and is sent even if
    the queue refused the payload; the one payload carries the link and the
    batch, and the counter goes up by the length of the batch less one.
    Otherwise nothing is produced and the counter goes down by one. *)
Theorem run_worker_outcome (f : Fetcher.stdHttpFetcher)
    (rules : Rules.CrawlingRules) (rng : rand.Rand) (w : worker)
    (fin : finished) :
  run_worker Marshal queue f rules rng w = Go.Ret fin ->
  exists responseTime foundLinks err,
    Fetcher.FetchLinks f (url.String (link w))
    = Go.Ret (responseTime, foundLinks, err)
    /\ rules_after fin = Rules.UpdateLastDelay rules responseTime
    /\ match sent fin with
       | Some batch =>
           batch <> [] /\ stopSentinel w = false
           /\ foundLinks = Some batch /\ err = None
           /\ payloads fin
              = [Marshal {| URL := url.String (link w);
                            Links_ := url.String <$> batch |}]
           /\ counter fin = Z.of_nat (length batch) - 1
       | None => payloads fin = [] /\ counter fin = -1
       end.
Proof.
  unfold run_worker. intros H.
  destruct (Fetcher.FetchLinks f (url.String (link w)))
    as [[[responseTime foundLinks] err]|] eqn:Hf; [|done].
  simpl in H. exists responseTime, foundLinks, err. split; [done|].
  destruct (publishes w foundLinks err) as [batch|] eqn:Hp.
  - destruct (enqueueResults Marshal queue (link w) batch)
      as [lines payload] eqn:He.
    destruct (Rules.CrawlDelay _ rng) as [[[delay r] rng']|] eqn:Hd; [|done].
    apply RulesProps.CrawlDelay_frame in Hd as ->.
    injection H as <-. simpl. split; [done|].
    apply publishes_batch in Hp as (? & ? & ? & ?).
    repeat split; try done.
    unfold enqueueResults in He. by case_match; simplify_eq.
  - destruct (Rules.CrawlDelay _ rng) as [[[delay r] rng']|] eqn:Hd; [|done].
    apply RulesProps.CrawlDelay_frame in Hd as ->.
    injection H as <-. simpl. done.
Qed.

End Statements.

Module Examples.

Import Fixture Fixture2.

Lemma linkCounter_outstanding_witness :
  linkCounter (vars (after settings2 crawl)) = 1
  /\ linksCh (after settings2 crawl) = [[link_c]].
Proof.
  split; [|by vm_compute].
  destruct (linkCounter_outstanding lines settings2 queue_up rules0 rng50
              base crawl (after settings2 crawl)) as (_ & _ & ->);
    by vm_compute.
Defined.

Lemma Timer_stops_idle_witness :
  linksCh (after settings_unlimited crawl_down) = []
  /\ Forall (fun w => pc w = Gone)
            (workers (vars (after settings_unlimited crawl_down))).
Proof.
  destruct (step lines settings_unlimited queue_up
                 (after settings_unlimited crawl_down) Timer)
    as [s'|] eqn:Hs'; [|vm_compute in Hs'; discriminate Hs'].
  destruct (Timer_stops_idle lines settings_unlimited queue_up rules0 rng50
              base crawl_down (after settings_unlimited crawl_down) s')
    as (_ & Hch & Hws & _);
    [ by vm_compute | by vm_compute | exact Hs'
    | vm_compute in Hs'; by injection Hs' as <- |].
  split; [exact Hch | exact Hws].
Defined.

Lemma workers_allowed_once_witness :
  NoDup ((fun w => url.String (link w))
           <$> workers (vars (after settings2 crawl))).
Proof.
  apply (workers_allowed_once lines settings2 queue_up rules0 rng50 base
           crawl (after settings2 crawl)).
  by vm_compute.
Defined.

Lemma MaxDepth_bounds_witness :
  depth (vars (after settings2 crawl)) <= 2
  /\ Z.of_nat (length (produced (after settings2 crawl))) <= 2.
Proof.
  destruct (MaxDepth_bounds lines settings2 queue_up rules0 rng50 base
              crawl (after settings2 crawl)) as (_ & Hd & Hp);
    [by vm_compute | by vm_compute |].
  split; [exact Hd | exact Hp].
Defined.

Lemma no_MaxDepth_witness :
  Forall (fun w => stopSentinel w = false)
         (workers (vars (after settings_unlimited crawl))).
Proof.
  eapply Forall_impl.
  - apply (no_MaxDepth lines settings_unlimited queue_up rules0 rng50 base
             crawl (after settings_unlimited crawl)); by vm_compute.
  - intros w [Hw _]. exact Hw.
Defined.

Lemma run_worker_outcome_witness :
  exists fin,
    run_worker lines queue_down fetcher1 rules0 rng50
               (Build_worker (U := furl) link_a false Started)
    = Go.Ret fin
    /\ sent fin = Some [link_c]
    /\ payloads fin = ["http://example.com/a http://example.com/c"%string]
    /\ counter fin = 0.
Proof.
  destruct (run_worker lines queue_down fetcher1 rules0 rng50
              (Build_worker (U := furl) link_a false Started))
    as [fin|] eqn:Hf; [|vm_compute in Hf; discriminate Hf].
  exists fin. split; [done|].
  destruct (run_worker_outcome lines queue_down fetcher1 rules0 rng50 _ fin Hf)
    as (responseTime & foundLinks & err & Hfetch & _ & Hsent).
  vm_compute in Hfetch. injection Hfetch as <- <- <-.
  destruct (sent fin) as [batch|] eqn:Hs.
  - destruct Hsent as (_ & _ & [= <-] & _ & -> & ->). by vm_compute.
  - vm_compute in Hf. injection Hf as <-. discriminate Hs.
Defined.

End Examples.

End EngineProps.
